(** * Cuboid and circumscribing ellipsoid: a shallow embedding of
      [CuboidToEllipsoid.py]

    The Python function [plot_cuboid_and_ellipsoid(a, b, c, annotate_vertices)]
    computes the eight vertices of a cuboid, a fixed list of twelve edges,
    the semi-axes of the circumscribing ellipsoid and an 80 x 80 sample of the
    ellipsoid surface, and hands all of it to matplotlib.

    Numbers: Python's [float] and numpy's [float64] are IEEE 754 binary64
    numbers, and the arithmetic of the function is read twice.  The program
    and the statements about orderings, signs, shapes of arrays and calls
    are written over the real numbers [R] of the Standard Library, that is,
    in exact arithmetic.  The statements that depend on rounding - distinct
    vertices, the values of the semi-axes, the equation of the ellipsoid,
    scaling - are made on the binary64 computation of lines 7-28, module
    [B64], over Rocq's primitive floats; [B2R] gives the real value of a
    binary64 number, and in range the binary64 vertex array is the exact
    one.  [np.sin] and [np.cos] are library routines whose binary64 results
    no standard fixes, so the sampled surface has the first reading only.

    Effects: every call into matplotlib is an action of a small free monad
    ([prog]); a failing subscript or a failing tuple unpacking raises, as in
    Python.  The plotting backend is a parameter of the interpreter. *)

From Stdlib Require Import Floats.
From Stdlib Require Import Reals Lra Lia List ZArith Bool String.
Import ListNotations.

#[local] Open Scope R_scope.

(** ** numpy and Python builtins used by the program *)

Module Np.

(** A one-dimensional float array. *)
Abbreviation vec := (list R) (only parsing).

(** A two-dimensional float array, stored by rows. *)
Abbreviation mat := (list (list R)) (only parsing).

(** [np.linspace(start, stop, num)]: [num] evenly spaced samples, the end
    point included: sample [i] is [start + i * step] with
    [step = (stop - start) / (num - 1)]. *)
Definition linspace (start stop : R) (num : nat) : vec :=
  let step := (stop - start) / INR (num - 1) in
  map (fun i => start + INR i * step) (seq 0 num).

(** [np.meshgrid(u, v)] with the default [indexing='xy']: both results have
    one row per element of [v] and one column per element of [u];
    [U[i][j] = u[j]] and [V[i][j] = v[i]]. *)
Definition meshgrid (u v : vec) : mat * mat :=
  (map (fun _ => u) v, map (fun vi => map (fun _ => vi) u) v).

(** A universal function applied to every element. *)
Definition ufunc (f : R -> R) (m : mat) : mat := map (map f) m.

(** scalar * array *)
Definition scale (r : R) (m : mat) : mat := map (map (Rmult r)) m.

(** array * array, element by element (the shapes agree in the program). *)
Fixpoint zip_with {A B C} (f : A -> B -> C) (l : list A) (l' : list B) : list C :=
  match l, l' with
  | x :: t, y :: t' => f x y :: zip_with f t t'
  | _, _ => []
  end.

Definition mul (m m' : mat) : mat := zip_with (zip_with Rmult) m m'.

End Np.

(** Python's [max(a, b, c)]: the first of the largest arguments. *)
Definition py_max3 (a b c : R) : R :=
  let m := a in
  let m := if Rlt_dec m b then b else m in
  let m := if Rlt_dec m c then c else m in
  m.

(** ** The geometry computed by [plot_cuboid_and_ellipsoid] *)

(** The tuple [(-1, 1)] the three comprehension loops iterate over. *)
Definition signs : list Z := [-1; 1]%Z.

(** Lines 7-13: the half-dimensions and the vertex array; [sx] is the
    outermost loop, [sz] the innermost. *)
Definition corners (a b c : R) : Np.mat :=
  let hx := a / 2 in
  let hy := b / 2 in
  let hz := c / 2 in
  flat_map (fun sx =>
    flat_map (fun sy =>
      map (fun sz => [IZR sx * hx; IZR sy * hy; IZR sz * hz]) signs)
      signs)
    signs.

(** Lines 16-24: the edges, as pairs of indices into [corners]. *)
Definition edges : list (nat * nat) :=
  [ (0, 1); (0, 2); (0, 4);
    (1, 3); (1, 5);
    (2, 3); (2, 6);
    (3, 7);
    (4, 5); (4, 6);
    (5, 7);
    (6, 7) ]%nat.

(** Lines 27-28: the radii of the ellipsoid. *)
Definition k : R := sqrt 3 / 2.

Definition radii (a b c : R) : R * R * R := (k * a, k * b, k * c).

(** Lines 47-52: the sampled surface. *)
Definition u : Np.vec := Np.linspace 0 (2 * PI) 80.
Definition v : Np.vec := Np.linspace 0 PI 80.

Definition surface (rx ry rz : R) : Np.mat * Np.mat * Np.mat :=
  let '(U, V) := Np.meshgrid u v in
  let X_e := Np.mul (Np.scale rx (Np.ufunc sin V)) (Np.ufunc cos U) in
  let Y_e := Np.mul (Np.scale ry (Np.ufunc sin V)) (Np.ufunc sin U) in
  let Z_e := Np.scale rz (Np.ufunc cos V) in
  (X_e, Y_e, Z_e).

(** Line 57. *)
Definition max_range (a b c : R) : R := py_max3 a b c.

(** ** Calls into matplotlib, and programs that issue them *)

(** A Python object handed back by the backend: a figure, an axes, an
    artist.  The program only ever passes such an object back as the receiver
    of a later call. *)
Definition obj := nat.

(** The calls of the program, with the arguments it passes.  The f-strings
    are kept as their holes: the label of a vertex is its index, the title
    is the three dimensions. *)
Inductive call : Type :=
| plt_figure
| add_subplot (fig : obj) (pos : Z) (projection : string)
| plot (ax : obj) (xs ys zs : R * R) (color : string) (linewidth : R)
| scatter (ax : obj) (x0 y0 z0 : R) (color : string) (s : R)
| text (ax : obj) (x0 y0 z0 : R) (idx : nat) (color : string) (fontsize : R)
| plot_surface (ax : obj) (X_e Y_e Z_e : Np.mat) (rstride cstride : Z)
               (alpha linewidth : R)
| set_xlim (ax : obj) (lo hi : R)
| set_ylim (ax : obj) (lo hi : R)
| set_zlim (ax : obj) (lo hi : R)
| set_xlabel (ax : obj) (label : string)
| set_ylabel (ax : obj) (label : string)
| set_zlabel (ax : obj) (label : string)
| set_title (ax : obj) (a b c : R)
| plt_show.

Inductive exn : Type := IndexError | ValueError.

(** A program either returns, raises, or calls the backend and goes on with
    the object the call returned. *)
Inductive prog (A : Type) : Type :=
| Ret (x : A)
| Raise (e : exn)
| Do (c : call) (next : obj -> prog A).

Arguments Ret {A} x.
Arguments Raise {A} e.
Arguments Do {A} c next.

Fixpoint bind {A B} (p : prog A) (f : A -> prog B) : prog B :=
  match p with
  | Ret x => f x
  | Raise e => Raise e
  | Do c next => Do c (fun o => bind (next o) f)
  end.

Definition invoke (c : call) : prog obj := Do c Ret.

Declare Scope prog_scope.
Delimit Scope prog_scope with prog.
Bind Scope prog_scope with prog.

Notation "x <- p ;; q" := (bind p (fun x => q))
  (at level 61, p at next level, right associativity) : prog_scope.
Notation "' pat <- p ;; q" := (bind p (fun x => match x with pat => q end))
  (at level 61, pat pattern, p at next level, right associativity) : prog_scope.
Notation "p ;; q" := (bind p (fun _ => q))
  (at level 61, right associativity) : prog_scope.

#[local] Open Scope prog_scope.

(** A [for] loop over a list. *)
Fixpoint for_ {X} (l : list X) (body : X -> prog unit) : prog unit :=
  match l with
  | [] => Ret tt
  | x :: t => body x ;; for_ t body
  end.

(** [l[i]] for an index that is not negative. *)
Definition subscript {X} (l : list X) (i : nat) : prog X :=
  match nth_error l i with
  | Some x => Ret x
  | None => Raise IndexError
  end.

(** Unpacking an iterable into exactly three targets. *)
Definition unpack3 {X} (l : list X) : prog (X * X * X) :=
  match l with
  | [x; y; z] => Ret (x, y, z)
  | _ => Raise ValueError
  end.

(** [zip(p, q)] is [combine p q]; [enumerate(l)] pairs each element with its
    position. *)
Definition enumerate {X} (l : list X) : list (nat * X) :=
  combine (seq 0 (List.length l)) l.

(** ** The program *)

(** The geometric local variables of the function when it returns (the
    function itself returns [None]). *)
Record locals : Type := {
  l_corners : Np.mat;
  l_edges : list (nat * nat);
  l_radii : R * R * R;
  l_surface : Np.mat * Np.mat * Np.mat;
  l_max_range : R
}.

(** Lines 36-37, the body of the loop over the edges. *)
Definition plot_edge (ax : obj) (corners : Np.mat) (e : nat * nat) : prog unit :=
  let '(i, j) := e in
  ci <- subscript corners i ;;
  cj <- subscript corners j ;;
  '(xs, ys, zs) <- unpack3 (combine ci cj) ;;
  invoke (plot ax xs ys zs "black" 1.5) ;;
  Ret tt.

(** Lines 35-37. *)
Definition plot_edges (ax : obj) (corners : Np.mat) (edges : list (nat * nat))
  : prog unit :=
  for_ edges (plot_edge ax corners).

(** Lines 42-44, the body of the loop over the vertices. *)
Definition annotate_vertex (ax : obj) (item : nat * Np.vec) : prog unit :=
  let '(idx, row) := item in
  '(x0, y0, z0) <- unpack3 row ;;
  invoke (scatter ax x0 y0 z0 "red" 20) ;;
  invoke (text ax x0 y0 z0 idx "blue" 10) ;;
  Ret tt.

(** Lines 41-44. *)
Definition annotate (ax : obj) (corners : Np.mat) : prog unit :=
  for_ (enumerate corners) (annotate_vertex ax).

Definition plot_cuboid_and_ellipsoid (a b c : R) (annotate_vertices : bool)
  : prog locals :=
  let corners := corners a b c in
  let edges := edges in
  let '(rx, ry, rz) := radii a b c in
  fig <- invoke plt_figure ;;
  ax <- invoke (add_subplot fig 111 "3d") ;;
  plot_edges ax corners edges ;;
  (if annotate_vertices then annotate ax corners else Ret tt) ;;
  let '(X_e, Y_e, Z_e) := surface rx ry rz in
  invoke (plot_surface ax X_e Y_e Z_e 4 4 0.3 0) ;;
  let max_range := max_range a b c in
  for_ [set_xlim ax; set_ylim ax; set_zlim ax]
       (fun setter => invoke (setter (- max_range / 2) (max_range / 2)) ;; Ret tt) ;;
  invoke (set_xlabel ax "X") ;;
  invoke (set_ylabel ax "Y") ;;
  invoke (set_zlabel ax "Z") ;;
  invoke (set_title ax a b c) ;;
  invoke plt_show ;;
  Ret {| l_corners := corners; l_edges := edges; l_radii := (rx, ry, rz);
         l_surface := (X_e, Y_e, Z_e); l_max_range := max_range |}.

(** ** Running a program against a backend *)

(** A backend has a state of its own and answers every call with an object. *)
Record backend : Type := {
  world : Type;
  respond : call -> world -> obj * world
}.

Inductive outcome (A : Type) : Type :=
| Returned (x : A)
| Raised (e : exn).

Arguments Returned {A} x.
Arguments Raised {A} e.

Section Run.
Context (B : backend) {A : Type}.

Fixpoint result (p : prog A) (w : world B) : outcome A :=
  match p with
  | Ret x => Returned x
  | Raise e => Raised e
  | Do c next =>
      let r := respond B c w in result (next (fst r)) (snd r)
  end.

Fixpoint calls (p : prog A) (w : world B) : list call :=
  match p with
  | Ret _ | Raise _ => []
  | Do c next =>
      let r := respond B c w in c :: calls (next (fst r)) (snd r)
  end.

Fixpoint final (p : prog A) (w : world B) : world B :=
  match p with
  | Ret _ | Raise _ => w
  | Do c next =>
      let r := respond B c w in final (next (fst r)) (snd r)
  end.
End Run.

(** The objects the program keeps: the figure and the axes. *)
Definition fig_of (B : backend) (w : world B) : obj :=
  fst (respond B plt_figure w).

Definition ax_of (B : backend) (w : world B) : obj :=
  fst (respond B (add_subplot (fig_of B w) 111 "3d")
         (snd (respond B plt_figure w))).

(** ** Vocabulary of the specification *)

(** Bit 0 stands for the sign [-], bit 1 for the sign [+]. *)
Definition pm (bit : bool) (h : R) : R := if bit then h else - h.

(** The vertex whose signs are given by three bits. *)
Definition sign_combination (a b c : R) (bx byy bz : bool) : Np.vec :=
  [pm bx (a / 2); pm byy (b / 2); pm bz (c / 2)].

Definition bit_index (bx byy bz : bool) : nat :=
  4 * Nat.b2n bx + 2 * Nat.b2n byy + Nat.b2n bz.

(** The three-bit patterns in increasing order of [bit_index]. *)
Definition bit_patterns : list (bool * bool * bool) :=
  flat_map (fun bx =>
    flat_map (fun byy => map (fun bz => (bx, byy, bz)) [false; true])
      [false; true])
    [false; true].

(** Two indices differ in exactly one bit position. *)
Definition one_bit_apart (i j : nat) : Prop :=
  exists m, forall n, Nat.testbit i n <> Nat.testbit j n <-> n = m.

(** The number of positions, among the three lowest, where two indices
    differ. *)
Definition differing_bits (i j : nat) : nat :=
  List.length
    (filter (fun n => xorb (Nat.testbit i n) (Nat.testbit j n)) (seq 0 3)).

(** The point [(x, y, z)] lies on the axis-aligned ellipsoid with semi-axes
    [rx], [ry], [rz]. *)
Definition on_ellipsoid (rx ry rz x y z : R) : Prop :=
  (x / rx) ^ 2 + (y / ry) ^ 2 + (z / rz) ^ 2 = 1.

(** What the function computes, as a function of the dimensions alone. *)
Definition geometry (a b c : R) : locals :=
  let '(rx, ry, rz) := radii a b c in
  {| l_corners := corners a b c;
     l_edges := edges;
     l_radii := (rx, ry, rz);
     l_surface := surface rx ry rz;
     l_max_range := max_range a b c |}.

(** Coordinate [axis] of row [n] of an array. *)
Definition coord (cs : Np.mat) (n axis : nat) : R := nth axis (nth n cs []) 0.

(** The segment drawn for an edge. *)
Definition segment (ax : obj) (cs : Np.mat) (e : nat * nat) : call :=
  let '(i, j) := e in
  plot ax (coord cs i 0, coord cs j 0) (coord cs i 1, coord cs j 1)
       (coord cs i 2, coord cs j 2) "black" 1.5.

(** The marker and the label drawn for a vertex. *)
Definition marker (ax : obj) (cs : Np.mat) (n : nat) : list call :=
  [ scatter ax (coord cs n 0) (coord cs n 1) (coord cs n 2) "red" 20;
    text ax (coord cs n 0) (coord cs n 1) (coord cs n 2) n "blue" 10 ].

Definition is_annotation (c : call) : bool :=
  match c with
  | scatter _ _ _ _ _ _ | text _ _ _ _ _ _ _ => true
  | _ => false
  end.


(** A backend that numbers the objects it hands out and keeps the calls it
    received, latest first. *)
Definition recorder : backend :=
  {| world := list call;
     respond := fun c w => (List.length w, c :: w) |}.

(** Lines 71-72: what the script does when it is run. *)
Definition main : prog locals := plot_cuboid_and_ellipsoid 10 50 1.5 true.

(** The object a call is made on, if it is a method call: the figure for
    [add_subplot], the axes for the drawing calls; [plt.figure] and
    [plt.show] are calls of the module. *)
Definition receiver (c : call) : option obj :=
  match c with
  | plt_figure | plt_show => None
  | add_subplot fig _ _ => Some fig
  | plot ax _ _ _ _ _ | scatter ax _ _ _ _ _ | text ax _ _ _ _ _ _
  | plot_surface ax _ _ _ _ _ _ _
  | set_xlim ax _ _ | set_ylim ax _ _ | set_zlim ax _ _
  | set_xlabel ax _ | set_ylabel ax _ | set_zlabel ax _
  | set_title ax _ _ _ => Some ax
  end.

(** The dimension of the cuboid along an axis (0 for X, 1 for Y, 2 for Z). *)
Definition dimension (a b c : R) (axis : nat) : R :=
  match axis with
  | O => a
  | S O => b
  | _ => c
  end.

(** The axis an edge runs along, read off the bit in which its two indices
    differ: bit 2 is X, bit 1 is Y, bit 0 is Z. *)
Definition edge_axis (e : nat * nat) : nat :=
  let '(i, j) := e in
  match Nat.lxor i j with
  | 4%nat => 0%nat
  | 2%nat => 1%nat
  | _ => 2%nat
  end.

(** How many times [plt.show()] is called in a list of calls. *)
Definition count_occ_show (log : list call) : nat :=
  List.length (filter (fun cl => match cl with plt_show => true | _ => false end)
                      log).

(** ** The same lines in binary64 arithmetic *)

(** Lines 7-13 and 27-28 once more, on IEEE 754 binary64 numbers: Rocq's
    primitive floats, whose division, multiplication and square root round
    to nearest, ties to even, as the arithmetic of Python's [float] and of
    numpy's [float64] does.  An argument given as a Python [int] (the [10]
    and [50] of the example run) enters these operations converted to the
    float of the same value. *)

Module B64.

(** The int-to-float conversion of a mixed product such as [sx*hx], for
    ints below [2^63] in absolute value (the program's are [-1] and [1]). *)
Definition of_int (z : Z) : float :=
  match z with
  | Z0 => 0%float
  | Zpos _ => of_uint63 (Uint63.of_Z z)
  | Zneg p => (- of_uint63 (Uint63.of_Z (Zpos p)))%float
  end.

(** Lines 7-13. *)
Definition corners (a b c : float) : list (list float) :=
  let hx := (a / 2)%float in
  let hy := (b / 2)%float in
  let hz := (c / 2)%float in
  flat_map (fun sx =>
    flat_map (fun sy =>
      map (fun sz => [(of_int sx * hx)%float; (of_int sy * hy)%float;
                      (of_int sz * hz)%float])
          signs)
      signs)
    signs.

(** Lines 27-28: [np.sqrt(3)/2] and the three products. *)
Definition k : float := (PrimFloat.sqrt 3 / 2)%float.

Definition radii (a b c : float) : float * float * float :=
  ((k * a)%float, (k * b)%float, (k * c)%float).

(** The geometric locals of lines 7-28. *)
Record locals : Type := {
  l_corners : list (list float);
  l_edges : list (nat * nat);
  l_radii : float * float * float
}.

Definition geometry (a b c : float) : locals :=
  {| l_corners := corners a b c;
     l_edges := edges;
     l_radii := radii a b c |}.

End B64.

(** *** Reading binary64 numbers *)

(** The real number a finite binary64 number stands for: [+- m * 2^e].
    Infinities and NaN carry no real value; they are sent to [0] and the
    statements below exclude them by a range condition. *)
Definition SF2R (x : spec_float) : R :=
  match x with
  | S754_finite s m e => IZR (cond_Zopp s (Zpos m)) * powerRZ 2 e
  | _ => 0
  end.

Definition B2R (x : float) : R := SF2R (Prim2SF x).

(** A dimension between [2^-1021] and the largest finite binary64 number:
    the dimension, its half and its product with [k] are normal numbers. *)
Definition in_range (a : float) : bool :=
  ((0x1p-1021 <=? a) && (a <=? 0x1.fffffffffffffp+1023))%float.

(** A dimension above the least positive binary64 number, [2^-1074]
    (infinity included). *)
Definition above_least (a : float) : bool := (0x1p-1074 <? a)%float.

(** Bit 0 stands for the sign [-], bit 1 for the sign [+]. *)
Definition pm64 (bit : bool) (h : float) : float :=
  if bit then h else (- h)%float.

(** The vertex whose signs are given by three bits, from the computed
    half-dimensions. *)
Definition sign_combination64 (a b c : float) (bx byy bz : bool) : list float :=
  [pm64 bx (a / 2)%float; pm64 byy (b / 2)%float; pm64 bz (c / 2)%float].

(** Two rows are equal as numbers, coordinate by coordinate (Python's [==],
    under which [-0.0] equals [0.0] and NaN equals nothing). *)
Fixpoint row_eqb (r r' : list float) : bool :=
  match r, r' with
  | [], [] => true
  | x :: t, y :: t' => (x =? y)%float && row_eqb t t'
  | _, _ => false
  end.

(** Coordinate [axis] of row [n] of a binary64 array. *)
Definition coord64 (cs : list (list float)) (n axis : nat) : float :=
  nth axis (nth n cs []) 0%float.

(** The left-hand side of the ellipsoid equation, in exact arithmetic. *)
Definition ellipsoid_form (rx ry rz x y z : R) : R :=
  (x / rx) ^ 2 + (y / ry) ^ 2 + (z / rz) ^ 2.

(** The same expression evaluated in binary64. *)
Definition ellipsoid_form64 (rx ry rz x y z : float) : float :=
  ((x / rx) * (x / rx) + (y / ry) * (y / ry) + (z / rz) * (z / rz))%float.

(** The dimension of the cuboid along an axis (0 for X, 1 for Y, 2 for Z). *)
Definition dimension64 (a b c : float) (axis : nat) : float :=
  match axis with
  | O => a
  | S O => b
  | _ => c
  end.

(** Whether two vertices with sign bits [bit] and [bit'] have numerically
    equal coordinates on an axis whose computed half-dimension is [h]: with
    equal signs when [h] is a number, with opposite signs when [h] is zero. *)
Definition same_coordinate (h : float) (bit bit' : bool) : bool :=
  if Bool.eqb bit bit' then (h =? h)%float else (h =? 0)%float.

(** The squared distance of a vertex from the origin, evaluated in
    binary64. *)
Definition dist2_64 (row : list float) : float :=
  match row with
  | [x; y; z] => (x * x + y * y + z * z)%float
  | _ => 0%float
  end.

(** *** Rounding *)

(** The binary64 numbers 1, 2 and [k] in the representation the rounding
    functions of the library work on. *)
Definition SFone : spec_float := S754_finite false 4503599627370496 (-52).
Definition SFtwo : spec_float := S754_finite false 4503599627370496 (-51).
Definition SFk : spec_float := S754_finite false 7800463371553962 (-53).

(** The state reached after shifting [M] right by [n] bits: the quotient,
    the last bit shifted out (round bit) and whether any earlier bit was
    set (sticky bit). *)
Definition shifted (M n : Z) (st : shr_record) : Prop :=
  (0 <= shr_m st)%Z /\
  exists rem low,
    (M = shr_m st * 2 ^ n + rem)%Z /\
    (rem = (if shr_r st then 2 ^ (n - 1) else 0) + low)%Z /\
    (0 <= low)%Z /\
    (n = 0%Z -> low = 0%Z /\ shr_r st = false) /\
    ((0 < n)%Z -> (low < 2 ^ (n - 1))%Z) /\
    shr_s st = negb (low =? 0)%Z.

(** * Properties *)

(** ** Programs and their runs *)

Section RunFacts.
Context (B : backend).

Lemma result_bind {A C} (p : prog A) (f : A -> prog C) (w : world B) :
  result B (bind p f) w =
  match result B p w with
  | Returned x => result B (f x) (final B p w)
  | Raised e => Raised e
  end.
Proof.
  revert w; induction p as [x | e | c next IH]; intros w; cbn; auto.
Qed.

Lemma calls_bind {A C} (p : prog A) (f : A -> prog C) (w : world B) :
  calls B (bind p f) w =
  calls B p w ++
  match result B p w with
  | Returned x => calls B (f x) (final B p w)
  | Raised _ => []
  end.
Proof.
  revert w; induction p as [x | e | c next IH]; intros w; cbn; auto.
  now rewrite IH.
Qed.

Lemma final_bind {A C} (p : prog A) (f : A -> prog C) (w : world B) :
  final B (bind p f) w =
  match result B p w with
  | Returned x => final B (f x) (final B p w)
  | Raised _ => final B p w
  end.
Proof.
  revert w; induction p as [x | e | c next IH]; intros w; cbn; auto.
Qed.

(** A loop whose body never raises does not raise, and issues the calls of
    its iterations one after the other. *)
Lemma for_returns {X} (l : list X) (body : X -> prog unit) :
  (forall x w, In x l -> result B (body x) w = Returned tt) ->
  forall w, result B (for_ l body) w = Returned tt.
Proof.
  induction l as [| x t IH]; intros Hbody w; cbn [for_]; [reflexivity |].
  rewrite result_bind, Hbody by (left; reflexivity).
  apply IH. intros y w' Hy. apply Hbody. now right.
Qed.

Lemma for_calls_length {X} (l : list X) (body : X -> prog unit) (n : nat) :
  (forall x w, In x l ->
     result B (body x) w = Returned tt /\
     List.length (calls B (body x) w) = n) ->
  forall w, List.length (calls B (for_ l body) w) = (List.length l * n)%nat.
Proof.
  induction l as [| x t IH]; intros Hbody w; cbn [for_]; [reflexivity |].
  destruct (Hbody x w (or_introl eq_refl)) as [Hr Hn].
  rewrite calls_bind, Hr, length_app, Hn, IH; [reflexivity |].
  intros y w' Hy. apply Hbody. now right.
Qed.
End RunFacts.

(** The monad laws of [prog], up to the extensional equality of
    continuations. *)
Lemma bind_ret_l {A C} (x : A) (f : A -> prog C) : bind (Ret x) f = f x.
Proof. reflexivity. Qed.

Lemma bind_raise {A C} (e : exn) (f : A -> prog C) : bind (Raise e) f = Raise e.
Proof. reflexivity. Qed.

Lemma result_bind_ret_r B {A} (p : prog A) w :
  result B (bind p Ret) w = result B p w.
Proof. rewrite result_bind. destruct (result B p w); reflexivity. Qed.

Lemma calls_bind_ret_r B {A} (p : prog A) w :
  calls B (bind p Ret) w = calls B p w.
Proof.
  rewrite calls_bind. destruct (result B p w); cbn; apply app_nil_r.
Qed.

(** ** Real arithmetic used below *)

Lemma sqrt3_pos : 0 < sqrt 3.
Proof. apply sqrt_lt_R0; lra. Qed.

Lemma sqrt3_sqr : sqrt 3 * sqrt 3 = 3.
Proof. apply sqrt_sqrt; lra. Qed.

Lemma k_pos : 0 < k.
Proof. unfold k. pose proof sqrt3_pos. lra. Qed.

Lemma k_sqr : k * k = 3 / 4.
Proof. unfold k. pose proof sqrt3_sqr. nra. Qed.



(** ** The vertices *)

Lemma corners_as_map a b c :
  corners a b c =
  map (fun '(bx, byy, bz) => sign_combination a b c bx byy bz) bit_patterns.
Proof.
  cbn. unfold sign_combination.
  repeat (f_equal; try (cbn [pm]; lra)).
Qed.

Lemma bit_patterns_complete bx byy bz : In (bx, byy, bz) bit_patterns.
Proof. destruct bx, byy, bz; cbn; tauto. Qed.

Lemma bit_patterns_index bx byy bz :
  nth_error bit_patterns (bit_index bx byy bz) = Some (bx, byy, bz).
Proof. destruct bx, byy, bz; reflexivity. Qed.

(** Without positivity the rows collapse: a zero dimension gives each vertex
    twice. *)
Lemma corners_zero_duplicates : ~ NoDup (corners 0 1 1).
Proof.
  rewrite corners_as_map. cbn. unfold sign_combination. cbn [pm].
  replace (- (0 / 2)) with (0 / 2) by lra.
  intros H. inversion H as [| ? ? Hnotin _]; subst.
  apply Hnotin. cbn. tauto.
Qed.

(** ** The edges *)

(** Case analysis on an index known to be below 8. *)
Ltac enum8 i :=
  let H := fresh "Hcase" in
  assert (H : (i = 0 \/ i = 1 \/ i = 2 \/ i = 3 \/
               i = 4 \/ i = 5 \/ i = 6 \/ i = 7)%nat) by lia;
  repeat (destruct H as [H | H]); subst i.

Lemma lxor_pow2_one_bit i j m :
  Nat.lxor i j = (2 ^ m)%nat ->
  forall n, Nat.testbit i n <> Nat.testbit j n <-> n = m.
Proof.
  intros Hx n.
  assert (Hn : xorb (Nat.testbit i n) (Nat.testbit j n) = (m =? n)%nat)
    by now rewrite <- Nat.lxor_spec, Hx, Nat.pow2_bits_eqb.
  destruct (Nat.eqb_spec m n) as [-> | Hne];
    destruct (Nat.testbit i n), (Nat.testbit j n); cbn in Hn;
    try discriminate; split; intros; try congruence; try tauto.
Qed.

Lemma differing_bits_sym i j : differing_bits i j = differing_bits j i.
Proof.
  unfold differing_bits. f_equal. apply filter_ext. intros n. apply xorb_comm.
Qed.

(** For three-bit indices, differing in exactly one position (of any rank)
    and having one differing bit among the three lowest are the same. *)
Lemma one_bit_apart_spec i j :
  (i < 8)%nat -> (j < 8)%nat ->
  one_bit_apart i j <-> differing_bits i j = 1%nat.
Proof.
  intros Hi Hj. enum8 i; enum8 j;
    (split;
     [ intros [m Hm];
       pose proof (Hm 0%nat) as H0; pose proof (Hm 1%nat) as H1;
       pose proof (Hm 2%nat) as H2; cbn in H0, H1, H2;
       first [ reflexivity
             | exfalso;
               try (assert (0 = m)%nat by (apply H0; discriminate));
               try (assert (1 = m)%nat by (apply H1; discriminate));
               try (assert (2 = m)%nat by (apply H2; discriminate));
               first [ lia | apply (proj2 (Hm m) eq_refl); reflexivity ] ]
     | intros Hd;
       first [ discriminate Hd
             | exists 0%nat; apply lxor_pow2_one_bit; reflexivity
             | exists 1%nat; apply lxor_pow2_one_bit; reflexivity
             | exists 2%nat; apply lxor_pow2_one_bit; reflexivity ] ]).
Qed.

Lemma edges_in_range i j : In (i, j) edges -> (i < j < 8)%nat.
Proof.
  cbn. intros H.
  repeat (destruct H as [H | H]; [injection H as <- <-; lia |]).
  contradiction.
Qed.

Lemma edges_differing_bits i j : In (i, j) edges -> differing_bits i j = 1%nat.
Proof.
  cbn. intros H.
  repeat (destruct H as [H | H]; [injection H as <- <-; reflexivity |]).
  contradiction.
Qed.

Lemma edges_complete i j :
  (i < j < 8)%nat -> differing_bits i j = 1%nat -> In (i, j) edges.
Proof.
  intros Hij. enum8 i; enum8 j;
    try lia; cbn; intros Hd; first [discriminate Hd | tauto].
Qed.

(** ** The calls of the program *)

Lemma corners_rows a b c row : In row (corners a b c) -> List.length row = 3%nat.
Proof.
  cbn. intros H.
  repeat (destruct H as [H | H]; [subst row; reflexivity |]).
  contradiction.
Qed.

Lemma corners_length a b c : List.length (corners a b c) = 8%nat.
Proof. reflexivity. Qed.

Section PlotEdges.
Context (B : backend) (ax : obj) (cs : Np.mat).
Hypothesis rows3 : forall row, In row cs -> List.length row = 3%nat.

Lemma plot_edge_in_bounds i j w :
  (i < List.length cs)%nat -> (j < List.length cs)%nat ->
  result B (plot_edge ax cs (i, j)) w = Returned tt /\
  calls B (plot_edge ax cs (i, j)) w = [segment ax cs (i, j)].
Proof.
  intros Hi Hj. unfold plot_edge, subscript, segment, coord. cbv beta iota.
  destruct (nth_error cs i) as [ci |] eqn:Ei;
    [| apply nth_error_None in Ei; lia].
  destruct (nth_error cs j) as [cj |] eqn:Ej;
    [| apply nth_error_None in Ej; lia].
  rewrite (nth_error_nth _ _ [] Ei), (nth_error_nth _ _ [] Ej).
  pose proof (rows3 ci (nth_error_In _ _ Ei)) as Li.
  pose proof (rows3 cj (nth_error_In _ _ Ej)) as Lj.
  destruct ci as [| xi [| yi [| zi [| ? ?]]]]; try discriminate Li.
  destruct cj as [| xj [| yj [| zj [| ? ?]]]]; try discriminate Lj.
  cbn. split; reflexivity.
Qed.

(** With every index inside the array, the loop of lines 35-37 does not
    raise and draws one segment per edge, in the order of the list. *)
Lemma plot_edges_in_bounds (es : list (nat * nat)) :
  (forall i j, In (i, j) es ->
               (i < List.length cs)%nat /\ (j < List.length cs)%nat) ->
  forall w,
    result B (plot_edges ax cs es) w = Returned tt /\
    calls B (plot_edges ax cs es) w = map (segment ax cs) es.
Proof.
  unfold plot_edges.
  induction es as [| [i j] t IH]; intros Hb w; cbn [for_ map];
    [split; reflexivity |].
  destruct (Hb i j (or_introl eq_refl)) as [Hi Hj].
  destruct (plot_edge_in_bounds i j w Hi Hj) as [Hr Hc].
  rewrite result_bind, calls_bind, Hr, Hc.
  destruct (IH (fun i' j' H => Hb i' j' (or_intror H))
               (final B (plot_edge ax cs (i, j)) w)) as [Hr' Hc'].
  rewrite Hr', Hc'. split; reflexivity.
Qed.

(** An index outside the array makes the subscript raise. *)
Lemma subscript_out_of_bounds i w :
  (List.length cs <= i)%nat ->
  result B (subscript cs i) w = Raised IndexError.
Proof.
  intros Hi. unfold subscript.
  now rewrite (proj2 (nth_error_None cs i) Hi).
Qed.
End PlotEdges.

(** The loop of lines 41-44 on an array whose rows have three columns: no
    unpacking fails, and every row gets a marker and a label. *)
Lemma annotate_returns B ax (cs : list (list R)) w :
  (forall row, In row cs -> List.length row = 3%nat) ->
  result B (annotate ax cs) w = Returned tt /\
  List.length (calls B (annotate ax cs) w) = (List.length cs * 2)%nat.
Proof.
  intros Hrows.
  assert (Hbody : forall item w', In item (enumerate cs) ->
            result B (annotate_vertex ax item) w' = Returned tt /\
            List.length (calls B (annotate_vertex ax item) w') = 2%nat).
  { intros [idx row] w' Hin. apply in_combine_r in Hin.
    pose proof (Hrows row Hin) as L.
    destruct row as [| x0 [| y0 [| z0 [| ? ?]]]]; try discriminate L.
    split; reflexivity. }
  unfold annotate. split.
  - apply for_returns. intros item w' Hin. now apply Hbody.
  - rewrite (for_calls_length B _ _ 2 Hbody).
    unfold enumerate. rewrite length_combine, length_seq, Nat.min_id.
    reflexivity.
Qed.

(** The bound is tight: on an array of seven rows the loop raises, at the
    edge [(3, 7)]. *)
Lemma plot_edges_short_array B ax a b c w :
  result B (plot_edges ax (firstn 7 (corners a b c)) edges) w = Raised IndexError.
Proof. reflexivity. Qed.

(** The function returns, whatever the backend and the flag, with the
    geometry of its dimensions in its local variables. *)
Lemma plot_result B w a b c flag :
  result B (plot_cuboid_and_ellipsoid a b c flag) w = Returned (geometry a b c).
Proof.
  unfold plot_cuboid_and_ellipsoid, geometry, radii.
  destruct (surface (k * a) (k * b) (k * c)) as [[X_e Y_e] Z_e].
  destruct flag; reflexivity.
Qed.

(** The calls the function issues, in order. *)
Lemma plot_calls B w a b c flag :
  calls B (plot_cuboid_and_ellipsoid a b c flag) w =
  let ax := ax_of B w in
  let cs := corners a b c in
  let m := max_range a b c in
  let '(X_e, Y_e, Z_e) := surface (k * a) (k * b) (k * c) in
  [plt_figure; add_subplot (fig_of B w) 111 "3d"]
  ++ map (segment ax cs) edges
  ++ (if flag then flat_map (marker ax cs) (seq 0 8) else [])
  ++ [ plot_surface ax X_e Y_e Z_e 4 4 0.3 0;
       set_xlim ax (- m / 2) (m / 2);
       set_ylim ax (- m / 2) (m / 2);
       set_zlim ax (- m / 2) (m / 2);
       set_xlabel ax "X"; set_ylabel ax "Y"; set_zlabel ax "Z";
       set_title ax a b c; plt_show ].
Proof.
  unfold plot_cuboid_and_ellipsoid, radii.
  destruct (surface (k * a) (k * b) (k * c)) as [[X_e Y_e] Z_e].
  destruct flag; reflexivity.
Qed.

(** C2.  The edge list is the twelve fixed pairs, whatever the inputs of the
    run; every pair joins two indices below 8 that differ in exactly one bit
    position; a pair of indices differing in two or three bits is not in the
    list, in either orientation; and every pair [i < j] of three-bit indices
    that differ in exactly one bit is in the list, once. *)
Theorem edges_hypercube :
  edges = [ (0, 1); (0, 2); (0, 4); (1, 3); (1, 5); (2, 3);
            (2, 6); (3, 7); (4, 5); (4, 6); (5, 7); (6, 7) ]%nat /\
  List.length edges = 12%nat /\
  (forall B w a b c flag,
     exists g, result B (plot_cuboid_and_ellipsoid a b c flag) w = Returned g /\
               l_edges g = edges) /\
  (forall i j, In (i, j) edges ->
     (i < j < 8)%nat /\ one_bit_apart i j /\ differing_bits i j = 1%nat) /\
  (forall i j, (i < 8)%nat -> (j < 8)%nat ->
     (2 <= differing_bits i j)%nat ->
     ~ In (i, j) edges /\ ~ In (j, i) edges) /\
  (forall i j, (i < j < 8)%nat -> one_bit_apart i j -> In (i, j) edges) /\
  NoDup edges.
Proof.
  split; [reflexivity |]. split; [reflexivity |].
  split; [| split; [| split; [| split]]].
  - intros B w a b c flag. exists (geometry a b c).
    split; [apply plot_result | reflexivity].
  - intros i j Hin. pose proof (edges_in_range i j Hin) as Hr.
    pose proof (edges_differing_bits i j Hin) as Hd.
    repeat split; try lia; try assumption.
    apply one_bit_apart_spec; [lia | lia | assumption].
  - intros i j Hi Hj Hd. split; intros Hin.
    + apply edges_differing_bits in Hin. lia.
    + apply edges_differing_bits in Hin.
      rewrite differing_bits_sym in Hin. lia.
  - intros i j Hij Hone. apply edges_complete; [assumption |].
    apply one_bit_apart_spec; [lia | lia | assumption].
  - unfold edges.
    repeat (constructor; [cbn; intuition congruence |]). constructor.
Qed.

(** The edge [(3, 7)] joins [011] and [111], which differ in bit 2 only;
    the face diagonal [(0, 3)] and the space diagonal [(0, 7)] are absent. *)
Lemma edges_hypercube_witness :
  ((3 < 7 < 8)%nat /\ one_bit_apart 3 7 /\ differing_bits 3 7 = 1%nat) /\
  (~ In (0, 3)%nat edges /\ ~ In (3, 0)%nat edges) /\
  (~ In (0, 7)%nat edges /\ ~ In (7, 0)%nat edges).
Proof.
  destruct edges_hypercube as (_ & _ & _ & Hedge & Hdiag & _).
  split; [apply Hedge; cbn; tauto |].
  split; apply Hdiag; cbn; lia.
Defined.

(** ** The sampled surface *)

Lemma nth_map_lt {X Y} (f : X -> Y) (l : list X) (i : nat) (d : Y) (d' : X) :
  (i < List.length l)%nat -> nth i (map f l) d = f (nth i l d').
Proof.
  revert i; induction l as [| x t IH]; intros [| i] Hi; cbn in *;
    try lia; auto. apply IH. lia.
Qed.

Lemma nth_zip_with {X Y Z} (f : X -> Y -> Z) (l : list X) (l' : list Y)
      (i : nat) (d : Z) (dx : X) (dy : Y) :
  (i < List.length l)%nat -> (i < List.length l')%nat ->
  nth i (Np.zip_with f l l') d = f (nth i l dx) (nth i l' dy).
Proof.
  revert l' i; induction l as [| x t IH]; intros [| y t'] [| i] Hl Hl';
    cbn in *; try lia; auto. apply IH; lia.
Qed.

Lemma length_zip_with {X Y Z} (f : X -> Y -> Z) (l : list X) (l' : list Y) :
  List.length (Np.zip_with f l l') = Nat.min (List.length l) (List.length l').
Proof.
  revert l'; induction l as [| x t IH]; intros [| y t']; cbn; auto.
Qed.

Lemma linspace_length start stop num :
  List.length (Np.linspace start stop num) = num.
Proof. unfold Np.linspace. now rewrite length_map, length_seq. Qed.



Lemma u_length : List.length u = 80%nat.
Proof. apply linspace_length. Qed.

Lemma v_length : List.length v = 80%nat.
Proof. apply linspace_length. Qed.



(** The shape of the three sample arrays: 80 rows of 80 columns. *)
Lemma surface_shape rx ry rz :
  let '(X_e, Y_e, Z_e) := surface rx ry rz in
  Forall (fun m => List.length m = 80%nat /\
                   Forall (fun row : list R => List.length row = 80%nat) m)
         [X_e; Y_e; Z_e].
Proof. repeat constructor. Qed.

Ltac grid_length :=
  rewrite ?length_zip_with, ?length_map, ?v_length, ?u_length;
  try apply Nat.min_glb_lt; assumption.

(** Rows are looked up before columns. *)
Ltac grid_nth :=
  repeat first
    [ rewrite (nth_zip_with _ _ _ _ [] [] []) by grid_length
    | rewrite (nth_map_lt _ _ _ [] []) by grid_length
    | rewrite (nth_map_lt _ _ _ [] 0) by grid_length ];
  repeat first
    [ rewrite (nth_zip_with _ _ _ _ 0 0 0) by grid_length
    | rewrite (nth_map_lt _ _ _ 0 0) by grid_length ].

(** The sample in row [i], column [j]. *)
Lemma surface_point rx ry rz i j :
  (i < 80)%nat -> (j < 80)%nat ->
  let '(X_e, Y_e, Z_e) := surface rx ry rz in
  coord X_e i j = rx * sin (nth i v 0) * cos (nth j u 0) /\
  coord Y_e i j = ry * sin (nth i v 0) * sin (nth j u 0) /\
  coord Z_e i j = rz * cos (nth i v 0).
Proof.
  intros Hi Hj.
  unfold surface, Np.meshgrid, Np.mul, Np.scale, Np.ufunc, coord.
  repeat split; grid_nth; reflexivity.
Qed.

(** ** The annotation flag, determinism *)

(** C7.  For strictly positive dimensions, and against any backend in any
    state, the runs with and without [annotate_vertices] return the same
    vertices, edges, semi-axes and surface samples; the calls of the run
    without the flag are those of the run with it minus the markers and
    labels; and the flag adds exactly one marker and one label per vertex,
    in the order of the vertices. *)
Theorem annotate_vertices_no_effect (B : backend) (w : world B) (a b c : R) :
  0 < a -> 0 < b -> 0 < c ->
  let run := plot_cuboid_and_ellipsoid a b c in
  result B (run true) w = result B (run false) w /\
  result B (run true) w = Returned (geometry a b c) /\
  calls B (run false) w =
    filter (fun call => negb (is_annotation call)) (calls B (run true) w) /\
  filter is_annotation (calls B (run false) w) = [] /\
  filter is_annotation (calls B (run true) w) =
    flat_map (marker (ax_of B w) (corners a b c)) (seq 0 8).
Proof.
  intros _ _ _ run. subst run. rewrite !plot_result.
  split; [reflexivity |]. split; [reflexivity |].
  unfold plot_cuboid_and_ellipsoid, radii.
  destruct (surface (k * a) (k * b) (k * c)) as [[X_e Y_e] Z_e].
  repeat split; reflexivity.
Qed.

Lemma annotate_vertices_no_effect_witness :
  let run := plot_cuboid_and_ellipsoid 10 50 1.5 in
  result recorder (run true) [] = result recorder (run false) [] /\
  result recorder (run true) [] = Returned (geometry 10 50 1.5) /\
  calls recorder (run false) [] =
    filter (fun call => negb (is_annotation call))
           (calls recorder (run true) []) /\
  filter is_annotation (calls recorder (run false) []) = [] /\
  filter is_annotation (calls recorder (run true) []) =
    flat_map (marker (ax_of recorder []) (corners 10 50 1.5)) (seq 0 8).
Proof.
  apply (annotate_vertices_no_effect recorder [] 10 50 1.5); lra.
Defined.

(** With the flag the run issues sixteen calls more. *)
Lemma annotate_vertices_calls B w a b c :
  List.length (calls B (plot_cuboid_and_ellipsoid a b c true) w) = 39%nat /\
  List.length (calls B (plot_cuboid_and_ellipsoid a b c false) w) = 23%nat.
Proof.
  rewrite !plot_calls.
  destruct (surface (k * a) (k * b) (k * c)) as [[X_e Y_e] Z_e].
  split; reflexivity.
Qed.

(** The calls depend on the backend through the two objects the program
    keeps, and on nothing else. *)
Lemma plot_calls_deterministic B1 B2 (w1 : world B1) (w2 : world B2) a b c flag :
  fig_of B1 w1 = fig_of B2 w2 -> ax_of B1 w1 = ax_of B2 w2 ->
  calls B1 (plot_cuboid_and_ellipsoid a b c flag) w1 =
  calls B2 (plot_cuboid_and_ellipsoid a b c flag) w2.
Proof. intros Hfig Hax. rewrite !plot_calls, Hfig, Hax. reflexivity. Qed.

(** C8.  The computed quantities are a function of the dimensions: two runs
    on the same arguments return the same vertices, edges, semi-axes and
    surface samples, whatever the backends they run against, the states of
    these backends and the objects they answer with; in particular a second
    run, started in the state the first one left, returns what the first
    returned. *)
Theorem plot_deterministic
        (B1 B2 : backend) (w1 : world B1) (w2 : world B2)
        (a b c : R) (annotate_vertices : bool) :
  let p := plot_cuboid_and_ellipsoid a b c annotate_vertices in
  result B1 p w1 = result B2 p w2 /\
  result B1 p w1 = Returned (geometry a b c) /\
  result B1 p (final B1 p w1) = result B1 p w1.
Proof. cbv zeta. rewrite !plot_result. repeat split. Qed.

(** ** Subscripts *)

(** C9.  Every index in the edge list is below 8; for every edge both rows
    exist in the vertex array; the loop that draws the edges never raises
    and draws the twelve segments; and the whole function returns rather
    than raises. *)
Theorem edges_subscripts_in_bounds :
  (forall i j, In (i, j) edges -> (i < 8)%nat /\ (j < 8)%nat) /\
  (forall a b c i j, In (i, j) edges ->
     exists ci cj,
       nth_error (corners a b c) i = Some ci /\
       nth_error (corners a b c) j = Some cj /\
       forall B w, result B (subscript (corners a b c) i) w = Returned ci /\
                   result B (subscript (corners a b c) j) w = Returned cj) /\
  (forall B ax a b c w,
     result B (plot_edges ax (corners a b c) edges) w = Returned tt /\
     calls B (plot_edges ax (corners a b c) edges) w =
       map (segment ax (corners a b c)) edges) /\
  (forall B w a b c flag,
     exists g, result B (plot_cuboid_and_ellipsoid a b c flag) w = Returned g).
Proof.
  assert (Hrange : forall i j, In (i, j) edges -> (i < 8)%nat /\ (j < 8)%nat)
    by (intros i j Hin; apply edges_in_range in Hin; lia).
  split; [exact Hrange |]. split; [| split].
  - intros a b c i j Hin. destruct (Hrange i j Hin) as [Hi Hj].
    destruct (nth_error (corners a b c) i) as [ci |] eqn:Ei;
      [| apply nth_error_None in Ei; rewrite corners_length in Ei; lia].
    destruct (nth_error (corners a b c) j) as [cj |] eqn:Ej;
      [| apply nth_error_None in Ej; rewrite corners_length in Ej; lia].
    exists ci, cj. repeat split; auto; unfold subscript;
      rewrite ?Ei, ?Ej; reflexivity.
  - intros B ax a b c w. apply plot_edges_in_bounds.
    + apply corners_rows.
    + intros i j Hin. rewrite corners_length. now apply Hrange.
  - intros B w a b c flag. exists (geometry a b c). apply plot_result.
Qed.

Lemma edges_subscripts_in_bounds_witness :
  (3 < 8)%nat /\ (7 < 8)%nat.
Proof.
  apply (proj1 edges_subscripts_in_bounds 3%nat 7%nat). cbn. tauto.
Defined.

(** ** The axis limits *)












(** ** A run against the recording backend *)

(** The recording backend hands out the figure as object 0 and the axes as
    object 1; a run without annotation starts with these calls. *)
Example recorder_run :
  fig_of recorder [] = 0%nat /\ ax_of recorder [] = 1%nat /\
  firstn 3 (calls recorder (plot_cuboid_and_ellipsoid 2 2 2 false) []) =
    [ plt_figure; add_subplot 0%nat 111 "3d";
      plot 1%nat (-1 * (2 / 2), -1 * (2 / 2)) (-1 * (2 / 2), -1 * (2 / 2))
           (-1 * (2 / 2), 1 * (2 / 2)) "black" 1.5 ].
Proof.
  rewrite plot_calls.
  destruct (surface (k * 2) (k * 2) (k * 2)) as [[X_e Y_e] Z_e].
  repeat split.
Qed.

(** * Further properties of the code *)

(** ** Edges as segments of the cuboid *)

Lemma corners_coord a b c bx byy bz :
  coord (corners a b c) (bit_index bx byy bz) 0 = pm bx (a / 2) /\
  coord (corners a b c) (bit_index bx byy bz) 1 = pm byy (b / 2) /\
  coord (corners a b c) (bit_index bx byy bz) 2 = pm bz (c / 2).
Proof.
  unfold coord. rewrite corners_as_map.
  rewrite (nth_error_nth _ _ [] (eq_trans (nth_error_map _ _ _)
             (f_equal (option_map _) (bit_patterns_index bx byy bz)))).
  repeat split.
Qed.

(** Every index below 8 is the index of a bit pattern. *)
Lemma bit_index_surjective n :
  (n < 8)%nat -> exists bx byy bz, n = bit_index bx byy bz.
Proof.
  intros Hn. enum8 n;
    [ exists false, false, false | exists false, false, true
    | exists false, true, false  | exists false, true, true
    | exists true, false, false  | exists true, false, true
    | exists true, true, false   | exists true, true, true ]; reflexivity.
Qed.

(** ** Degenerate and inverted cuboids *)

Lemma pm_opp bit h : pm bit (- h) = pm (negb bit) h.
Proof. destruct bit; cbn [pm negb]; lra. Qed.

Lemma pm_neg_half bit a : pm bit (- a / 2) = pm (negb bit) (a / 2).
Proof. rewrite <- pm_opp. f_equal. field. Qed.

(** X3.  Lines 7-13: a negative dimension inverts the cuboid along its axis:
    the vertex array of [(-a, b, c)] is that of [(a, b, c)] with the rows
    exchanged in pairs across the X bit of the index (and likewise bit 1 for
    [b], bit 0 for [c]); the set of vertices is the same. *)
Theorem corners_negated_dimension (a b c : R) :
  (forall n, (n < 8)%nat ->
     nth_error (corners (- a) b c) n = nth_error (corners a b c) (Nat.lxor n 4) /\
     nth_error (corners a (- b) c) n = nth_error (corners a b c) (Nat.lxor n 2) /\
     nth_error (corners a b (- c)) n = nth_error (corners a b c) (Nat.lxor n 1)) /\
  (forall p, In p (corners (- a) b c) <-> In p (corners a b c)) /\
  (forall p, In p (corners a (- b) c) <-> In p (corners a b c)) /\
  (forall p, In p (corners a b (- c)) <-> In p (corners a b c)).
Proof.
  assert (Hidx : forall n, (n < 8)%nat ->
     nth_error (corners (- a) b c) n = nth_error (corners a b c) (Nat.lxor n 4) /\
     nth_error (corners a (- b) c) n = nth_error (corners a b c) (Nat.lxor n 2) /\
     nth_error (corners a b (- c)) n = nth_error (corners a b c) (Nat.lxor n 1)).
  { intros n Hn. rewrite !corners_as_map.
    enum8 n; cbn; unfold sign_combination; rewrite !pm_neg_half;
      repeat split. }
  split; [exact Hidx |].
  assert (Hlx : forall m n, (n < 8)%nat -> In m [1; 2; 4]%nat ->
                  (Nat.lxor n m < 8)%nat /\ Nat.lxor (Nat.lxor n m) m = n).
  { intros m n Hn Hm. cbn in Hm.
    destruct Hm as [<- | [<- | [<- | []]]]; enum8 n; cbn; lia. }
  assert (Hin : forall l l' : list (list R), forall m,
            In m [1; 2; 4]%nat ->
            List.length l = 8%nat -> List.length l' = 8%nat ->
            (forall n, (n < 8)%nat -> nth_error l n = nth_error l' (Nat.lxor n m)) ->
            forall p, In p l <-> In p l').
  { intros l l' m Hm Hl Hl' Heq p. split; intros Hp.
    - apply In_nth_error in Hp. destruct Hp as [n Hp].
      assert (Hn : (n < 8)%nat)
        by (rewrite <- Hl; apply nth_error_Some; congruence).
      rewrite Heq in Hp by exact Hn. eapply nth_error_In; exact Hp.
    - apply In_nth_error in Hp. destruct Hp as [n Hp].
      assert (Hn : (n < 8)%nat)
        by (rewrite <- Hl'; apply nth_error_Some; congruence).
      destruct (Hlx m n Hn Hm) as [Hlt Hback].
      rewrite <- Hback, <- Heq in Hp by exact Hlt.
      eapply nth_error_In; exact Hp. }
  split; [| split].
  - apply (Hin _ _ 4%nat); [cbn; tauto | reflexivity | reflexivity |].
    intros n Hn. apply (Hidx n Hn).
  - apply (Hin _ _ 2%nat); [cbn; tauto | reflexivity | reflexivity |].
    intros n Hn. apply (Hidx n Hn).
  - apply (Hin _ _ 1%nat); [cbn; tauto | reflexivity | reflexivity |].
    intros n Hn. apply (Hidx n Hn).
Qed.

(** ** Symmetry of the vertices, and the display box *)

Lemma bit_patterns_complement bx byy bz :
  (7 - bit_index bx byy bz)%nat = bit_index (negb bx) (negb byy) (negb bz).
Proof. destruct bx, byy, bz; reflexivity. Qed.

Lemma pm_negb bit h : pm (negb bit) h = - pm bit h.
Proof. destruct bit; cbn [pm negb]; lra. Qed.

(** X4.  Lines 10-13: the enumeration is centrally symmetric: the vertex at
    index [7 - n] is the opposite of the vertex at index [n], in each of the
    three coordinates; hence the coordinates of the eight vertices sum to
    zero on each axis (the cuboid is centred at the origin), whatever the
    dimensions. *)
Theorem corners_central_symmetry (a b c : R) :
  (forall n axis, (n < 8)%nat -> (axis < 3)%nat ->
     coord (corners a b c) (7 - n) axis = - coord (corners a b c) n axis) /\
  (forall axis, (axis < 3)%nat ->
     fold_right Rplus 0 (map (fun row => nth axis row 0) (corners a b c)) = 0).
Proof.
  split.
  - intros n axis Hn Haxis.
    destruct (bit_index_surjective n Hn) as (bx & byy & bz & ->).
    rewrite bit_patterns_complement.
    destruct (corners_coord a b c bx byy bz) as (Hx & Hy & Hz).
    destruct (corners_coord a b c (negb bx) (negb byy) (negb bz))
      as (Hx' & Hy' & Hz').
    assert (H3 : (axis = 0 \/ axis = 1 \/ axis = 2)%nat) by lia.
    destruct H3 as [-> | [-> | ->]];
      rewrite ?Hx, ?Hy, ?Hz, ?Hx', ?Hy', ?Hz'; apply pm_negb.
  - intros axis Haxis.
    assert (H3 : (axis = 0 \/ axis = 1 \/ axis = 2)%nat) by lia.
    destruct H3 as [-> | [-> | ->]]; cbn; lra.
Qed.

Lemma py_max3_spec a b c :
  (py_max3 a b c = a \/ py_max3 a b c = b \/ py_max3 a b c = c) /\
  a <= py_max3 a b c /\ b <= py_max3 a b c /\ c <= py_max3 a b c.
Proof.
  unfold py_max3. repeat destruct Rlt_dec; repeat split; auto; lra.
Qed.

Lemma pm_bounds bit h : 0 <= h -> - h <= pm bit h <= h.
Proof. destruct bit; cbn [pm]; lra. Qed.

(** X5.  Lines 7-13 and 57-59: for strictly positive dimensions every
    coordinate of every vertex lies within the axis limits
    [[-max_range/2, max_range/2]], and on the axis of a largest dimension the
    vertices lie on the limits themselves: the cuboid fits the displayed box
    exactly. *)
Theorem corners_within_limits (a b c : R) :
  0 < a -> 0 < b -> 0 < c ->
  let m := max_range a b c in
  (forall n axis, (n < 8)%nat -> (axis < 3)%nat ->
     - m / 2 <= coord (corners a b c) n axis <= m / 2) /\
  (forall axis, (axis < 3)%nat -> dimension a b c axis = m ->
     coord (corners a b c) 0 axis = - m / 2 /\
     coord (corners a b c) 7 axis = m / 2).
Proof.
  intros Ha Hb Hc m. unfold m, max_range.
  destruct (py_max3_spec a b c) as (_ & Hma & Hmb & Hmc).
  set (M := py_max3 a b c) in *.
  split.
  - intros n axis Hn Haxis.
    destruct (bit_index_surjective n Hn) as (bx & byy & bz & ->).
    destruct (corners_coord a b c bx byy bz) as (Hx & Hy & Hz).
    assert (H3 : (axis = 0 \/ axis = 1 \/ axis = 2)%nat) by lia.
    destruct H3 as [-> | [-> | ->]]; rewrite ?Hx, ?Hy, ?Hz.
    + pose proof (pm_bounds bx (a / 2)). lra.
    + pose proof (pm_bounds byy (b / 2)). lra.
    + pose proof (pm_bounds bz (c / 2)). lra.
  - intros axis Haxis Hdim.
    assert (H3 : (axis = 0 \/ axis = 1 \/ axis = 2)%nat) by lia.
    destruct H3 as [-> | [-> | ->]]; cbn in Hdim |- *; lra.
Qed.

Lemma corners_within_limits_witness :
  let m := max_range 10 50 1.5 in
  (forall n axis, (n < 8)%nat -> (axis < 3)%nat ->
     - m / 2 <= coord (corners 10 50 1.5) n axis <= m / 2) /\
  (forall axis, (axis < 3)%nat -> dimension 10 50 1.5 axis = m ->
     coord (corners 10 50 1.5) 0 axis = - m / 2 /\
     coord (corners 10 50 1.5) 7 axis = m / 2).
Proof. apply (corners_within_limits 10 50 1.5); lra. Defined.

(** ** The sampled surface and the box of its semi-axes *)

Lemma Rabs_product_le r s t :
  Rabs s <= 1 -> Rabs t <= 1 -> Rabs r * Rabs s * Rabs t <= Rabs r.
Proof.
  intros Hs Ht.
  pose proof (Rabs_pos r). pose proof (Rabs_pos s). pose proof (Rabs_pos t).
  assert (Hst : Rabs s * Rabs t <= 1) by nra.
  rewrite Rmult_assoc. rewrite <- (Rmult_1_r (Rabs r)) at 2.
  apply Rmult_le_compat_l; assumption.
Qed.

(** X10.  Lines 47-52: no sample leaves the box of the semi-axes:
    [|X| <= |rx|], [|Y| <= |ry|], [|Z| <= |rz|], for any semi-axes. *)
Theorem surface_in_box (rx ry rz : R) :
  let '(X_e, Y_e, Z_e) := surface rx ry rz in
  forall i j, (i < 80)%nat -> (j < 80)%nat ->
    Rabs (coord X_e i j) <= Rabs rx /\
    Rabs (coord Y_e i j) <= Rabs ry /\
    Rabs (coord Z_e i j) <= Rabs rz.
Proof.
  pose proof (fun i j Hi Hj => surface_point rx ry rz i j Hi Hj) as Hpt.
  destruct (surface rx ry rz) as [[X_e Y_e] Z_e].
  intros i j Hi Hj. destruct (Hpt i j Hi Hj) as (-> & -> & ->).
  rewrite !Rabs_mult.
  pose proof (Rabs_le _ _ (SIN_bound (nth i v 0))) as Hsv.
  pose proof (Rabs_le _ _ (COS_bound (nth i v 0))) as Hcv.
  pose proof (Rabs_le _ _ (SIN_bound (nth j u 0))) as Hsu.
  pose proof (Rabs_le _ _ (COS_bound (nth j u 0))) as Hcu.
  split; [| split].
  - apply Rabs_product_le; assumption.
  - apply Rabs_product_le; assumption.
  - pose proof (Rabs_pos rz). rewrite <- (Rmult_1_r (Rabs rz)) at 2.
    apply Rmult_le_compat_l; assumption.
Qed.

(** ** Failing subscripts and unpackings *)

(** X13.  Lines 36-37: what one iteration of the edge loop does on an
    arbitrary array: it raises [IndexError] when an index is outside the
    array (the first index is tried first); otherwise it raises
    [ValueError] unless the shorter of the two rows has exactly three
    entries ([zip] cuts the longer one); otherwise it returns, having drawn
    one segment.  No call is issued in the failing cases. *)
Theorem plot_edge_outcome (B : backend) (w : world B) (ax : obj)
        (cs : list (list R)) (i j : nat) :
  result B (plot_edge ax cs (i, j)) w =
    match nth_error cs i, nth_error cs j with
    | None, _ | Some _, None => Raised IndexError
    | Some ci, Some cj =>
        if (Nat.min (List.length ci) (List.length cj) =? 3)%nat
        then Returned tt else Raised ValueError
    end /\
  List.length (calls B (plot_edge ax cs (i, j)) w) =
    match result B (plot_edge ax cs (i, j)) w with
    | Returned _ => 1%nat
    | Raised _ => 0%nat
    end.
Proof.
  unfold plot_edge, subscript.
  destruct (nth_error cs i) as [ci |]; [| split; reflexivity].
  destruct (nth_error cs j) as [cj |]; [| split; reflexivity].
  destruct ci as [| x1 [| y1 [| z1 [| t1 ci]]]];
    destruct cj as [| x2 [| y2 [| z2 [| t2 cj]]]];
    split; reflexivity.
Qed.

(** X14.  Lines 35-37: the edge loop stops at the first edge with an index
    outside the array: it raises [IndexError], the segments of the edges
    before it have been drawn, in order, and nothing is drawn for the edges
    after it. *)
Theorem plot_edges_index_error (B : backend) (w : world B) (ax : obj)
        (cs : list (list R)) (pre post : list (nat * nat)) (i j : nat) :
  (forall row, In row cs -> List.length row = 3%nat) ->
  (forall i' j', In (i', j') pre ->
     (i' < List.length cs)%nat /\ (j' < List.length cs)%nat) ->
  (List.length cs <= i)%nat \/ (List.length cs <= j)%nat ->
  result B (plot_edges ax cs (pre ++ (i, j) :: post)) w = Raised IndexError /\
  calls B (plot_edges ax cs (pre ++ (i, j) :: post)) w =
    map (segment ax cs) pre.
Proof.
  intros Hrows Hpre Hbad. revert w. unfold plot_edges.
  induction pre as [| [i' j'] t IH]; intros w; cbn [app for_ map].
  - assert (Hraise : result B (plot_edge ax cs (i, j)) w = Raised IndexError /\
                     calls B (plot_edge ax cs (i, j)) w = []).
    { unfold plot_edge, subscript. destruct Hbad as [Hi | Hj].
      - rewrite (proj2 (nth_error_None cs i) Hi). split; reflexivity.
      - rewrite (proj2 (nth_error_None cs j) Hj).
        destruct (nth_error cs i); split; reflexivity. }
    destruct Hraise as [Hr Hc].
    rewrite result_bind, calls_bind, Hr, Hc. split; reflexivity.
  - destruct (Hpre i' j' (or_introl eq_refl)) as [Hi' Hj'].
    destruct (plot_edge_in_bounds B ax cs Hrows i' j' w Hi' Hj') as [Hr Hc].
    rewrite result_bind, calls_bind, Hr, Hc.
    destruct (IH (fun x y H => Hpre x y (or_intror H))
                 (final B (plot_edge ax cs (i', j')) w)) as [Hr' Hc'].
    rewrite Hr', Hc'. split; reflexivity.
Qed.

(** A two-row array and the edges [(0, 1); (1, 2); (0, 1)]: the first
    segment is drawn, the second edge raises, the third is not reached. *)
Lemma plot_edges_index_error_witness :
  let cs := [[0; 0; 0]; [1; 1; 1]] in
  result recorder (plot_edges 1%nat cs ([(0, 1)] ++ (1, 2) :: [(0, 1)])%nat) [] =
    Raised IndexError /\
  calls recorder (plot_edges 1%nat cs ([(0, 1)] ++ (1, 2) :: [(0, 1)])%nat) [] =
    map (segment 1%nat cs) [(0, 1)%nat].
Proof.
  apply (plot_edges_index_error recorder [] 1%nat [[0; 0; 0]; [1; 1; 1]]
           [(0, 1)%nat] [(0, 1)%nat] 1%nat 2%nat).
  - intros row [<- | [<- | []]]; reflexivity.
  - intros i' j' [H | []]. injection H as <- <-. cbn. lia.
  - right. cbn. lia.
Defined.

Lemma marker_middle ax (done : list (list R)) x0 y0 z0 rest :
  marker ax (done ++ [x0; y0; z0] :: rest) (List.length done) =
  [ scatter ax x0 y0 z0 "red" 20;
    text ax x0 y0 z0 (List.length done) "blue" 10 ].
Proof. unfold marker, coord. rewrite nth_middle. reflexivity. Qed.

Lemma annotate_loop B ax (done rest : list (list R)) w :
  (forall row, In row rest -> List.length row = 3%nat) ->
  result B (for_ (combine (seq (List.length done) (List.length rest)) rest)
                 (annotate_vertex ax)) w = Returned tt /\
  calls B (for_ (combine (seq (List.length done) (List.length rest)) rest)
                (annotate_vertex ax)) w =
    flat_map (marker ax (done ++ rest))
             (seq (List.length done) (List.length rest)).
Proof.
  revert done w. induction rest as [| row rest IH]; intros done w Hrows;
    [split; reflexivity |].
  pose proof (Hrows row (or_introl eq_refl)) as L.
  destruct row as [| x0 [| y0 [| z0 [| ? ?]]]]; try discriminate L.
  cbn [List.length seq combine for_ flat_map].
  rewrite result_bind, calls_bind. cbn [annotate_vertex].
  destruct (IH (done ++ [[x0; y0; z0]])
               (final B (annotate_vertex ax (List.length done, [x0; y0; z0])) w)
               (fun r H => Hrows r (or_intror H))) as [Hr Hc].
  rewrite length_app in Hr, Hc. cbn [List.length] in Hr, Hc.
  rewrite Nat.add_1_r in Hr, Hc. rewrite <- app_assoc in Hc.
  cbn [app] in Hc. cbn [annotate_vertex] in Hr, Hc.
  rewrite marker_middle. split.
  - exact Hr.
  - cbn [result]. rewrite <- Hc. reflexivity.
Qed.

Lemma annotate_loop_error B ax (done good : list (list R)) bad post w :
  (forall row, In row good -> List.length row = 3%nat) ->
  List.length bad <> 3%nat ->
  result B (for_ (combine (seq (List.length done)
                               (List.length (good ++ bad :: post)))
                          (good ++ bad :: post))
                 (annotate_vertex ax)) w = Raised ValueError /\
  calls B (for_ (combine (seq (List.length done)
                              (List.length (good ++ bad :: post)))
                         (good ++ bad :: post))
                (annotate_vertex ax)) w =
    flat_map (marker ax (done ++ good ++ bad :: post))
             (seq (List.length done) (List.length good)).
Proof.
  revert done w. induction good as [| row good IH]; intros done w Hrows Hbad.
  - cbn [app List.length seq combine for_ flat_map].
    rewrite result_bind, calls_bind.
    destruct bad as [| x0 [| y0 [| z0 [| ? ?]]]];
      try (exfalso; apply Hbad; reflexivity); split; reflexivity.
  - pose proof (Hrows row (or_introl eq_refl)) as L.
    destruct row as [| x0 [| y0 [| z0 [| ? ?]]]]; try discriminate L.
    cbn [app List.length seq combine for_ flat_map].
    rewrite result_bind, calls_bind. cbn [annotate_vertex].
    destruct (IH (done ++ [[x0; y0; z0]])
                 (final B (annotate_vertex ax (List.length done, [x0; y0; z0])) w)
                 (fun r H => Hrows r (or_intror H)) Hbad) as [Hr Hc].
    rewrite length_app in Hr, Hc. cbn [List.length] in Hr, Hc.
    rewrite Nat.add_1_r in Hr, Hc. rewrite <- app_assoc in Hc.
    cbn [app] in Hc. cbn [annotate_vertex] in Hr, Hc.
    rewrite marker_middle. split.
    + exact Hr.
    + cbn [result]. rewrite <- Hc. reflexivity.
Qed.

(** X15.  Lines 40-44: on any array whose rows have three entries the
    annotation loop returns and draws, for each row in order, a marker at
    the row's coordinates followed by a label at the same place whose text
    is the row's index, counted from 0. *)
Theorem annotate_markers_and_labels (B : backend) (w : world B) (ax : obj)
        (cs : list (list R)) :
  (forall row, In row cs -> List.length row = 3%nat) ->
  result B (annotate ax cs) w = Returned tt /\
  calls B (annotate ax cs) w =
    flat_map (marker ax cs) (seq 0 (List.length cs)).
Proof.
  intros Hrows. exact (annotate_loop B ax [] cs w Hrows).
Qed.

Lemma annotate_markers_and_labels_witness :
  let cs := [[0; 0; 0]; [1; 2; 3]] in
  result recorder (annotate 1%nat cs) [] = Returned tt /\
  calls recorder (annotate 1%nat cs) [] =
    flat_map (marker 1%nat cs) (seq 0 (List.length cs)).
Proof.
  apply (annotate_markers_and_labels recorder [] 1%nat [[0; 0; 0]; [1; 2; 3]]).
  intros row [<- | [<- | []]]; reflexivity.
Defined.

(** X16.  Lines 40-44: the annotation loop stops at the first row that does
    not have exactly three entries: unpacking it raises [ValueError], the
    markers and labels of the rows before it have been drawn, and nothing
    is drawn for that row or the rows after it. *)
Theorem annotate_value_error (B : backend) (w : world B) (ax : obj)
        (good : list (list R)) (bad : list R) (post : list (list R)) :
  (forall row, In row good -> List.length row = 3%nat) ->
  List.length bad <> 3%nat ->
  result B (annotate ax (good ++ bad :: post)) w = Raised ValueError /\
  calls B (annotate ax (good ++ bad :: post)) w =
    flat_map (marker ax (good ++ bad :: post)) (seq 0 (List.length good)).
Proof.
  intros Hrows Hbad.
  exact (annotate_loop_error B ax [] good bad post w Hrows Hbad).
Qed.

(** A row of two entries after a row of three. *)
Lemma annotate_value_error_witness :
  result recorder (annotate 1%nat ([[0; 0; 0]] ++ [1; 2] :: [])) [] =
    Raised ValueError /\
  calls recorder (annotate 1%nat ([[0; 0; 0]] ++ [1; 2] :: [])) [] =
    flat_map (marker 1%nat ([[0; 0; 0]] ++ [1; 2] :: [])) (seq 0 1).
Proof.
  apply (annotate_value_error recorder [] 1%nat [[0; 0; 0]] [1; 2] []).
  - intros row [<- | []]. reflexivity.
  - cbn. lia.
Defined.

(** ** The calls, their order and their receivers *)

(** X17.  Lines 31-67: the function uses two objects of the backend and no
    other: the figure answered by [plt.figure()], on which [add_subplot] is
    called, and the axes answered by [add_subplot], on which every drawing
    and every setting call is made, whatever else the backend answers. *)
Theorem calls_receivers (B : backend) (w : world B) (a b c : R)
        (annotate_vertices : bool) :
  forall cl,
    In cl (calls B (plot_cuboid_and_ellipsoid a b c annotate_vertices) w) ->
    match cl with
    | plt_figure | plt_show => True
    | add_subplot fig _ _ => fig = fig_of B w
    | _ => receiver cl = Some (ax_of B w)
    end.
Proof.
  apply Forall_forall.
  unfold plot_cuboid_and_ellipsoid, radii.
  destruct (surface (k * a) (k * b) (k * c)) as [[X_e Y_e] Z_e].
  destruct annotate_vertices; cbn; repeat constructor.
Qed.

Lemma calls_receivers_witness :
  receiver (set_title (ax_of recorder []) 10 50 1.5) =
  Some (ax_of recorder []).
Proof.
  apply (calls_receivers recorder [] 10 50 1.5 true
           (set_title (ax_of recorder []) 10 50 1.5)).
  rewrite plot_calls.
  destruct (surface (k * 10) (k * 50) (k * 1.5)) as [[X_e Y_e] Z_e].
  cbn. tauto.
Defined.

(** X18.  Lines 31-67: the order of the calls: the figure and the axes are
    created; the twelve segments are drawn in the order of the edge list;
    then, with the flag only, the sixteen markers and labels; then the
    surface; then the three limits, the three axis labels and the title;
    [plt.show()] comes last.  There are 23 calls without the flag and 39
    with it. *)
Theorem plot_call_sequence (B : backend) (w : world B) (a b c : R)
        (annotate_vertices : bool) :
  let ax := ax_of B w in
  let cs := corners a b c in
  let m := max_range a b c in
  let log := calls B (plot_cuboid_and_ellipsoid a b c annotate_vertices) w in
  let '(X_e, Y_e, Z_e) := surface (k * a) (k * b) (k * c) in
  log =
    [plt_figure; add_subplot (fig_of B w) 111 "3d"]
    ++ map (segment ax cs) edges
    ++ (if annotate_vertices then flat_map (marker ax cs) (seq 0 8) else [])
    ++ [ plot_surface ax X_e Y_e Z_e 4 4 0.3 0;
         set_xlim ax (- m / 2) (m / 2);
         set_ylim ax (- m / 2) (m / 2);
         set_zlim ax (- m / 2) (m / 2);
         set_xlabel ax "X"; set_ylabel ax "Y"; set_zlabel ax "Z";
         set_title ax a b c; plt_show ] /\
  List.length log = (if annotate_vertices then 39 else 23)%nat /\
  hd_error log = Some plt_figure /\
  last log plt_figure = plt_show /\
  count_occ_show log = 1%nat.
Proof.
  cbv zeta. rewrite plot_calls.
  destruct (surface (k * a) (k * b) (k * c)) as [[X_e Y_e] Z_e].
  destruct annotate_vertices; repeat split.
Qed.

(** The script: the run of lines 71-72 returns the geometry of the cuboid
    [10 x 50 x 1.5] and issues the 39 calls of an annotated run. *)
Example main_run B w :
  result B main w = Returned (geometry 10 50 1.5) /\
  List.length (calls B main w) = 39%nat.
Proof.
  unfold main. split; [apply plot_result |].
  apply (annotate_vertices_calls B w 10 50 1.5).
Qed.

(** ** The theorems above at concrete inputs *)

(** Row 1 of the cuboid inverted along X is row 5 of the cuboid. *)
Lemma corners_negated_dimension_witness :
  nth_error (corners (- 10) 50 1.5) 1 = nth_error (corners 10 50 1.5) 5.
Proof.
  apply (proj1 (proj1 (corners_negated_dimension 10 50 1.5) 1%nat ltac:(lia))).
Defined.

Lemma corners_central_symmetry_witness :
  coord (corners 10 50 1.5) (7 - 2) 1 = - coord (corners 10 50 1.5) 2 1.
Proof.
  apply (proj1 (corners_central_symmetry 10 50 1.5) 2%nat 1%nat); lia.
Defined.

Lemma surface_in_box_witness :
  let '(X_e, Y_e, Z_e) := surface 1 2 3 in
  Rabs (coord X_e 40 20) <= Rabs 1 /\
  Rabs (coord Y_e 40 20) <= Rabs 2 /\
  Rabs (coord Z_e 40 20) <= Rabs 3.
Proof.
  pose proof (surface_in_box 1 2 3) as H.
  destruct (surface 1 2 3) as [[X_e Y_e] Z_e]. apply H; lia.
Defined.

(** * Binary64 arithmetic *)

(** ** Rounding to nearest, on the library's representation *)

Section Binary64.

#[local] Open Scope Z_scope.

Lemma digits2_pos_bounds (m : positive) :
  2 ^ (Zpos (digits2_pos m) - 1) <= Zpos m < 2 ^ Zpos (digits2_pos m).
Proof.
  induction m as [p IH | p IH |]; cbn [digits2_pos].
  - rewrite Pos2Z.inj_succ.
    replace (Z.succ (Zpos (digits2_pos p)) - 1)
      with (Z.succ (Zpos (digits2_pos p) - 1)) by lia.
    rewrite !Z.pow_succ_r by lia. lia.
  - rewrite Pos2Z.inj_succ.
    replace (Z.succ (Zpos (digits2_pos p)) - 1)
      with (Z.succ (Zpos (digits2_pos p) - 1)) by lia.
    rewrite !Z.pow_succ_r by lia. lia.
  - cbn. lia.
Qed.

(** The number of digits is determined by the bounds. *)
Lemma digits2_pos_unique (m : positive) (d : Z) :
  2 ^ (d - 1) <= Zpos m < 2 ^ d -> Zpos (digits2_pos m) = d.
Proof.
  intros [Hlo Hhi]. pose proof (digits2_pos_bounds m) as [Blo Bhi].
  set (d' := Zpos (digits2_pos m)) in *.
  assert (0 < d') by (unfold d'; lia).
  assert (Hd : 0 < d).
  { destruct (Z.lt_trichotomy d 0) as [Hn | [-> | Hp]]; [| | exact Hp].
    - rewrite (Z.pow_neg_r 2 d Hn) in Hhi. lia.
    - cbn in Hhi. lia. }
  destruct (Z.lt_trichotomy d d') as [Hlt | [Heq | Hgt]]; [| lia |].
  - assert (2 ^ d <= 2 ^ (d' - 1)) by (apply Z.pow_le_mono_r; lia). lia.
  - assert (2 ^ d' <= 2 ^ (d - 1)) by (apply Z.pow_le_mono_r; lia). lia.
Qed.

(** [iter_pos] is the iteration of the library. *)
Lemma iter_pos_iter {A} (f : A -> A) (p : positive) (x : A) :
  SpecFloat.iter_pos f p x = Pos.iter f x p.
Proof.
  revert x. induction p as [p IH | p IH |]; intros x;
    cbn [SpecFloat.iter_pos Pos.iter].
  - rewrite !IH. rewrite <- !Pos.iter_swap. reflexivity.
  - rewrite !IH. reflexivity.
  - reflexivity.
Qed.

Lemma shifted_0 M : 0 <= M -> shifted M 0 (Build_shr_record M false false).
Proof.
  intros HM. split; [exact HM |]. exists 0, 0. cbn. repeat split; lia.
Qed.

Lemma shifted_step M k st :
  0 <= k -> shifted M k st -> shifted M (k + 1) (shr_1 st).
Proof.
  intros Hk (Hm & rem & low & HM & Hrem & Hlow & H0 & Hpos & Hs).
  destruct st as [m r s]. cbn [shr_m shr_r shr_s] in *.
  assert (Hk1 : k + 1 - 1 = k) by lia.
  assert (Hp : 2 ^ (k + 1) = 2 * 2 ^ k) by (rewrite Z.pow_add_r by lia; lia).
  assert (Hpk : 0 < 2 ^ k) by (apply Z.pow_pos_nonneg; lia).
  assert (Hremk : 0 <= rem < 2 ^ k).
  { destruct (Z.eq_dec k 0) as [-> | Hne].
    - destruct (H0 eq_refl) as [-> ->]. cbn in *. lia.
    - assert (Hlt := Hpos ltac:(lia)).
      assert (2 ^ k = 2 * 2 ^ (k - 1))
        by (replace k with (k - 1 + 1) at 1 by lia;
            rewrite Z.pow_add_r by lia; lia).
      assert (0 < 2 ^ (k - 1)) by (apply Z.pow_pos_nonneg; lia).
      destruct r; lia. }
  assert (Hsticky : orb r s = negb (rem =? 0)).
  { rewrite Hs. destruct (Z.eq_dec k 0) as [-> | Hne].
    - destruct (H0 eq_refl) as [-> ->]. subst rem. reflexivity.
    - assert (0 < 2 ^ (k - 1)) by (apply Z.pow_pos_nonneg; lia).
      destruct r; cbn [orb].
      + symmetry. apply negb_true_iff, Z.eqb_neq. lia.
      + f_equal. subst rem. reflexivity. }
  assert (Hgoal : forall (q : Z) (b : bool),
            0 <= q -> m = 2 * q + (if b then 1 else 0) ->
            shifted M (k + 1) (Build_shr_record q b (orb r s))).
  { intros q b Hq Hmq. split; [exact Hq |]. cbn [shr_m shr_r shr_s].
    exists ((if b then 2 ^ k else 0) + rem), rem. rewrite Hk1.
    repeat split; try lia.
    - rewrite HM, Hmq, Hp. destruct b; ring.
    - exact Hsticky. }
  unfold shr_1.
  destruct m as [| [p | p |] | p]; try lia.
  - apply (Hgoal 0 false); lia.
  - apply (Hgoal (Zpos p) true); lia.
  - apply (Hgoal (Zpos p) false); lia.
  - apply (Hgoal 0 true); lia.
Qed.

Lemma shifted_iter M (p : positive) st :
  shifted M 0 st -> shifted M (Zpos p) (SpecFloat.iter_pos shr_1 p st).
Proof.
  intros H0. rewrite iter_pos_iter.
  induction p as [| p IH] using Pos.peano_ind.
  - cbn [Pos.iter]. apply (shifted_step M 0); [lia | exact H0].
  - rewrite Pos.iter_succ, Pos2Z.inj_succ.
    replace (Z.succ (Zpos p)) with (Zpos p + 1) by lia.
    apply shifted_step; [lia | exact IH].
Qed.

(** Rounding to nearest, ties to even, of a shifted state: the result is
    the quotient or the next integer, and is within half a unit. *)
Lemma round_nearest_even_shifted M k st :
  0 <= k -> shifted M k st ->
  let m2 := round_nearest_even (shr_m st) (loc_of_shr_record st) in
  shr_m st <= m2 <= shr_m st + 1 /\
  2 * Z.abs (m2 * 2 ^ k - M) <= 2 ^ k /\
  (M = shr_m st * 2 ^ k -> m2 = shr_m st).
Proof.
  intros Hk (Hm & rem & low & HM & Hrem & Hlow & H0 & Hpos & Hs).
  destruct st as [m r s]. cbn [shr_m shr_r shr_s] in *.
  assert (Hpk : 0 < 2 ^ k) by (apply Z.pow_pos_nonneg; lia).
  destruct (Z.eq_dec k 0) as [-> | Hne].
  - destruct (H0 eq_refl) as [-> ->]. cbn in Hs, Hrem. subst s rem.
    change (2 ^ 0) with 1 in *. cbn [loc_of_shr_record round_nearest_even].
    repeat split; lia.
  - assert (Hlt := Hpos ltac:(lia)).
    assert (Hk2 : 2 ^ k = 2 * 2 ^ (k - 1))
      by (replace k with (k - 1 + 1) at 1 by lia;
          rewrite Z.pow_add_r by lia; lia).
    assert (0 < 2 ^ (k - 1)) by (apply Z.pow_pos_nonneg; lia).
    set (P := 2 ^ (k - 1)) in *. set (Q := 2 ^ k) in *.
    assert (Hup : (m + 1) * Q - M = Q - rem) by (rewrite HM; ring).
    assert (Hdn : m * Q - M = - rem) by (rewrite HM; ring).
    destruct r, s; cbn [loc_of_shr_record round_nearest_even].
    + symmetry in Hs. apply negb_true_iff, Z.eqb_neq in Hs.
      rewrite Hup. repeat split; lia.
    + symmetry in Hs. apply negb_false_iff, Z.eqb_eq in Hs. subst low.
      destruct (Z.even m); rewrite ?Hup, ?Hdn; repeat split; lia.
    + symmetry in Hs. apply negb_true_iff, Z.eqb_neq in Hs.
      rewrite Hdn. repeat split; lia.
    + symmetry in Hs. apply negb_false_iff, Z.eqb_eq in Hs. subst low.
      rewrite Hdn. repeat split; lia.
Qed.

Lemma fexp64 e : fexp 53 1024 e = Z.max (e - 53) (-1074).
Proof. reflexivity. Qed.

(** The first shift of [binary_round_aux] on an exact input. *)
Lemma shr_fexp_exact (M : positive) (E : Z) :
  let n := fexp 53 1024 (Zpos (digits2_pos M) + E) - E in
  0 <= n ->
  exists st,
    shr_fexp 53 1024 (Zpos M) E loc_Exact = (st, E + n) /\
    shifted (Zpos M) n st.
Proof.
  intros n Hn. unfold shr_fexp. cbn [Zdigits2 shr_record_of_loc].
  fold n. unfold shr. destruct n as [| p | p] eqn:En; try lia.
  - exists (Build_shr_record (Zpos M) false false).
    split; [f_equal; lia | apply shifted_0; lia].
  - eexists. split; [reflexivity |].
    apply shifted_iter, shifted_0. lia.
Qed.

Lemma pow2_split (a b : Z) : 0 <= a -> 0 <= b -> 2 ^ (a + b) = 2 ^ a * 2 ^ b.
Proof. intros. apply Z.pow_add_r; assumption. Qed.

(** Rounding an exact value whose result is a normal number: the result
    has 53 digits and is within relative error [2^-53]. *)
Lemma binary_round_aux_normal (s : bool) (M : positive) (E : Z) :
  let d := Zpos (digits2_pos M) in
  54 <= d -> -1074 <= d + E - 53 ->
  exists m e,
    binary_round_aux 53 1024 s (Zpos M) E loc_Exact =
      (if e <=? 971 then S754_finite s m e else S754_infinity s) /\
    d + E - 53 <= e <= d + E - 52 /\
    Zpos (digits2_pos m) = 53 /\
    2 ^ 53 * Z.abs (Zpos m * 2 ^ (e - E) - Zpos M) <= Zpos M.
Proof.
  cbv zeta. pose proof (digits2_pos_bounds M) as [Blo Bhi].
  remember (Zpos (digits2_pos M)) as d eqn:Dd. intros Hd Hlo.
  assert (Hn : fexp 53 1024 (d + E) - E = d - 53). { rewrite fexp64. lia. }
  pose proof (shr_fexp_exact M E) as Hex. cbv zeta in Hex.
  rewrite <- Dd, Hn in Hex.
  destruct Hex as (st & Hshr & Hst); [lia |].
  set (n := d - 53) in *.
  assert (Hnpos : 1 <= n) by (unfold n; lia).
  assert (Hn0 : 0 <= n) by lia.
  pose proof (round_nearest_even_shifted (Zpos M) n st Hn0 Hst) as Hr.
  cbv zeta in Hr.
  remember (round_nearest_even (shr_m st) (loc_of_shr_record st)) as m2 eqn:Dm2.
  destruct Hr as (Hm2 & Herr & _).
  destruct Hst as (Hm1 & rem & low & HM & Hrem & Hlow & _ & Hlt & _).
  specialize (Hlt ltac:(lia)).
  remember (shr_m st) as m1 eqn:Dm1.
  remember (2 ^ n) as Q eqn:DQ.
  assert (HQ : 0 < Q) by (rewrite DQ; apply Z.pow_pos_nonneg; lia).
  assert (HQ2 : Q = 2 * 2 ^ (n - 1))
    by (rewrite DQ; replace n with (n - 1 + 1) at 1 by lia;
        rewrite pow2_split by lia; lia).
  assert (HP : 0 < 2 ^ (n - 1)) by (apply Z.pow_pos_nonneg; lia).
  assert (Hremb : 0 <= rem < Q) by (destruct (shr_r st); lia).
  assert (Hd1 : 2 ^ (d - 1) = 2 ^ 52 * Q)
    by (rewrite DQ, <- pow2_split by lia; f_equal; lia).
  assert (Hd0 : 2 ^ d = 2 ^ 53 * Q)
    by (rewrite DQ, <- pow2_split by lia; f_equal; lia).
  assert (Hm1b : 2 ^ 52 <= m1 < 2 ^ 53) by nia.
  unfold binary_round_aux. rewrite Hshr. rewrite Dm1 in Dm2. rewrite <- Dm2.
  destruct (Z.eq_dec m2 (2 ^ 53)) as [Etop | Hntop].
  - (* the mantissa carried to 2^53 *)
    assert (Etop' : m2 = 9007199254740992) by (rewrite Etop; reflexivity).
    rewrite Etop'.
    exists (4503599627370496)%positive, (E + n + 1).
    split.
    + unfold shr_fexp, shr. cbn [shr_record_of_loc].
      change (Zdigits2 9007199254740992) with 54.
      rewrite fexp64.
      replace (Z.max (54 + (E + n) - 53) (-1074) - (E + n)) with 1 by lia.
      cbn [SpecFloat.iter_pos shr_1 shr_m].
      change (1024 - 53) with 971. reflexivity.
    + split; [unfold n; lia |]. split; [reflexivity |].
      replace (E + n + 1 - E) with (n + 1) by lia.
      rewrite pow2_split by lia. rewrite <- DQ.
      change (2 ^ 1) with 2.
      replace (Zpos 4503599627370496 * (Q * 2) - Zpos M)
        with (m2 * Q - Zpos M) by (rewrite Etop; lia).
      lia.
  - assert (Hm2b : 2 ^ 52 <= m2 < 2 ^ 53) by lia.
    destruct m2 as [| q | q] eqn:Em2; try lia.
    exists q, (E + n).
    assert (Hdq : Zpos (digits2_pos q) = 53)
      by (apply digits2_pos_unique; exact Hm2b).
    split.
    + unfold shr_fexp, shr. cbn [Zdigits2 shr_record_of_loc].
      rewrite Hdq, fexp64.
      replace (Z.max (53 + (E + n) - 53) (-1074) - (E + n)) with 0
        by (unfold n; lia).
      cbn [shr_m]. change (1024 - 53) with 971. reflexivity.
    + split; [unfold n; lia |]. split; [exact Hdq |].
      replace (E + n - E) with n by lia. rewrite <- DQ. lia.
Qed.

Lemma digits2_pos_shift (m M : positive) (n : Z) :
  0 <= n -> Zpos M = Zpos m * 2 ^ n ->
  Zpos (digits2_pos M) = Zpos (digits2_pos m) + n.
Proof.
  intros Hn HM. pose proof (digits2_pos_bounds m) as [Blo Bhi].
  apply digits2_pos_unique. rewrite HM.
  replace (Zpos (digits2_pos m) + n - 1) with (Zpos (digits2_pos m) - 1 + n)
    by lia.
  rewrite !pow2_split by lia.
  assert (0 < 2 ^ n) by (apply Z.pow_pos_nonneg; lia).
  split; [apply Z.mul_le_mono_nonneg_r | apply Z.mul_lt_mono_pos_r]; lia.
Qed.

(** Rounding a value that is representable: nothing is lost. *)
Lemma binary_round_aux_exact (s : bool) (M m : positive) (E n : Z) :
  0 <= n -> Zpos M = Zpos m * 2 ^ n ->
  fexp 53 1024 (Zpos (digits2_pos m) + (E + n)) = E + n ->
  E + n <= 971 ->
  binary_round_aux 53 1024 s (Zpos M) E loc_Exact = S754_finite s m (E + n).
Proof.
  intros Hn HM Hcan Hmax.
  pose proof (digits2_pos_shift m M n Hn HM) as Hdig.
  pose proof (shr_fexp_exact M E) as Hex. cbv zeta in Hex.
  assert (Hsh : fexp 53 1024 (Zpos (digits2_pos M) + E) - E = n).
  { rewrite Hdig.
    replace (Zpos (digits2_pos m) + n + E) with (Zpos (digits2_pos m) + (E + n))
      by lia.
    rewrite Hcan. lia. }
  rewrite Hsh in Hex. destruct (Hex Hn) as (st & Hshr & Hst).
  pose proof (round_nearest_even_shifted (Zpos M) n st Hn Hst) as Hr.
  cbv zeta in Hr. destruct Hr as (_ & _ & Hexact).
  assert (Hm1 : shr_m st = Zpos m).
  { destruct Hst as (Hm1 & rem & low & HM' & Hrem & Hlow & H0 & Hlt & _).
    assert (HQ : 0 < 2 ^ n) by (apply Z.pow_pos_nonneg; lia).
    assert (Hremb : 0 <= rem < 2 ^ n).
    { destruct (Z.eq_dec n 0) as [-> | Hne].
      - destruct (H0 eq_refl) as [-> Hr0]. rewrite Hr0 in Hrem. cbn in *. lia.
      - specialize (Hlt ltac:(lia)).
        assert (2 ^ n = 2 * 2 ^ (n - 1))
          by (replace n with (n - 1 + 1) at 1 by lia;
              rewrite pow2_split by lia; lia).
        assert (0 < 2 ^ (n - 1)) by (apply Z.pow_pos_nonneg; lia).
        destruct (shr_r st); lia. }
    remember (2 ^ n) as Q. remember (shr_m st) as m1. nia. }
  assert (HM1 : Zpos M = shr_m st * 2 ^ n) by (rewrite Hm1; exact HM).
  specialize (Hexact HM1).
  unfold binary_round_aux. rewrite Hshr, Hexact, Hm1.
  unfold shr_fexp, shr. cbn [Zdigits2 shr_record_of_loc].
  rewrite Hcan. replace (E + n - (E + n)) with 0 by lia. cbn [shr_m].
  assert (Hle : (E + n <=? 1024 - 53) = true) by (apply Z.leb_le; lia).
  rewrite Hle. reflexivity.
Qed.

Lemma canonical_fexp m e :
  canonical_mantissa 53 1024 m e = true ->
  fexp 53 1024 (Zpos (digits2_pos m) + e) = e.
Proof. unfold canonical_mantissa. intros H. now apply Z.eqb_eq in H. Qed.

Lemma valid_finite s m e :
  valid_binary (S754_finite s m e) = true ->
  fexp 53 1024 (Zpos (digits2_pos m) + e) = e /\ e <= 971.
Proof.
  cbn [SpecFloat.valid_binary]. unfold bounded. intros H.
  apply andb_true_iff in H. destruct H as [Hc Hb].
  split; [now apply canonical_fexp |]. apply Z.leb_le in Hb. exact Hb.
Qed.

(** Multiplication by 1 and by -1 is exact, for every float. *)
Lemma SF64mul_one_l x :
  valid_binary x = true -> SF64mul SFone x = x.
Proof.
  intros Hv. destruct x as [s | s | | s m e]; try reflexivity.
  destruct (valid_finite s m e Hv) as [Hcan Hmax].
  unfold SF64mul, SFmul, SFone. cbn [xorb].
  replace (-52 + e) with (e - 52) by lia.
  rewrite (binary_round_aux_exact s _ m (e - 52) 52); try lia.
  - f_equal. lia.
  - replace (e - 52 + 52) with e by lia. exact Hcan.
Qed.

Lemma SF64mul_minus_one_l x :
  valid_binary x = true -> SF64mul (SFopp SFone) x = SFopp x.
Proof.
  intros Hv. destruct x as [s | s | | s m e]; try reflexivity.
  destruct (valid_finite s m e Hv) as [Hcan Hmax].
  unfold SF64mul, SFmul, SFone, SFopp. cbn [xorb negb].
  replace (-52 + e) with (e - 52) by lia.
  rewrite (binary_round_aux_exact _ _ m (e - 52) 52); try lia.
  - f_equal. lia.
  - replace (e - 52 + 52) with e by lia. exact Hcan.
Qed.

Lemma div_eucl_unique (a b q r : Z) :
  0 <= r < b -> a = b * q + r -> Z.div_eucl a b = (q, r).
Proof.
  intros Hr Ha.
  pose proof (Z.div_unique a b q r (or_introl Hr) Ha) as Hq.
  pose proof (Z.mod_unique a b q r (or_introl Hr) Ha) as Hm.
  unfold Z.div, Z.modulo in Hq, Hm.
  destruct (Z.div_eucl a b) as [q' r']. cbn in Hq, Hm. congruence.
Qed.

(** A valid finite number with exponent above the least one is normal. *)
Lemma valid_normal s m e :
  valid_binary (S754_finite s m e) = true -> -1073 <= e ->
  Zpos (digits2_pos m) = 53.
Proof.
  intros Hv He. destruct (valid_finite s m e Hv) as [Hcan _].
  rewrite fexp64 in Hcan. lia.
Qed.

Lemma valid_digits s m e :
  valid_binary (S754_finite s m e) = true ->
  Zpos (digits2_pos m) <= 53 /\ -1074 <= e.
Proof.
  intros Hv. destruct (valid_finite s m e Hv) as [Hcan _].
  rewrite fexp64 in Hcan. lia.
Qed.

(** Division by two of a number that is at least [2^-1021]: the exponent
    drops by one and the mantissa is kept. *)
Lemma SFdiv_core_two_normal (m : positive) (e : Z) :
  Zpos (digits2_pos m) = 53 -> -1073 <= e ->
  exists n, 0 <= n <= 1 /\
    SFdiv_core_binary 53 1024 (Zpos m) e 4503599627370496 (-51) =
      (Zpos m * 2 ^ n, e - 1 - n, loc_Exact).
Proof.
  intros Hd He. unfold SFdiv_core_binary. cbn [Zdigits2]. rewrite Hd.
  change (Zpos (digits2_pos 4503599627370496)) with 53.
  rewrite fexp64.
  remember (Z.min (Z.max (53 + e - (53 + -51) - 53) (-1074)) (e - -51)) as e'
    eqn:De'.
  exists (e - 1 - e').
  assert (Hn : 0 <= e - 1 - e' <= 1) by lia.
  split; [exact Hn |].
  replace (e - -51 - e') with (52 + (e - 1 - e')) by lia.
  remember (e - 1 - e') as n eqn:Dn.
  destruct (52 + n) as [| p | p] eqn:Es; try lia.
  rewrite <- Es, Z.shiftl_mul_pow2 by lia.
  rewrite (div_eucl_unique _ 4503599627370496 (Zpos m * 2 ^ n) 0).
  - cbn [new_location]. replace (e - 1 - n) with e' by lia. reflexivity.
  - lia.
  - rewrite pow2_split by lia. change (2 ^ 52) with 4503599627370496. lia.
Qed.

Lemma SF64div_two_normal s m e :
  valid_binary (S754_finite s m e) = true -> -1073 <= e ->
  SF64div (S754_finite s m e) SFtwo = S754_finite s m (e - 1).
Proof.
  intros Hv He. pose proof (valid_normal s m e Hv He) as Hd.
  destruct (valid_finite s m e Hv) as [_ Hmax].
  destruct (SFdiv_core_two_normal m e Hd He) as (n & Hn & Hcore).
  unfold SF64div, SFdiv, SFtwo.
  change prec with 53. change emax with 1024. rewrite Hcore.
  replace (xorb s false) with s by (destruct s; reflexivity).
  assert (Hp : 0 < Zpos m * 2 ^ n)
    by (apply Z.mul_pos_pos; [lia | apply Z.pow_pos_nonneg; lia]).
  destruct (Zpos m * 2 ^ n) as [| M | M] eqn:EM; try lia.
  rewrite (binary_round_aux_exact s M m (e - 1 - n) n); try lia.
  - f_equal. lia.
  - rewrite Hd, fexp64. lia.
Qed.

Lemma digits2_pos_le (m : positive) (d : Z) :
  0 <= d -> Zpos m < 2 ^ d -> Zpos (digits2_pos m) <= d.
Proof.
  intros Hd Hm. pose proof (digits2_pos_bounds m) as [Blo _].
  destruct (Z.le_gt_cases (Zpos (digits2_pos m)) d) as [Hle | Hgt];
    [exact Hle |].
  assert (2 ^ d <= 2 ^ (Zpos (digits2_pos m) - 1))
    by (apply Z.pow_le_mono_r; lia).
  lia.
Qed.

Lemma digits2_pos_lt (m : positive) (d : Z) :
  Zpos (digits2_pos m) <= d -> Zpos m < 2 ^ d.
Proof.
  intros Hd. pose proof (digits2_pos_bounds m) as [_ Bhi].
  assert (2 ^ Zpos (digits2_pos m) <= 2 ^ d) by (apply Z.pow_le_mono_r; lia).
  lia.
Qed.

(** Division by two at the least exponent: the mantissa is halved and the
    bit shifted out decides the rounding. *)
Lemma SFdiv_core_two_least (m : positive) :
  Zpos (digits2_pos m) <= 53 ->
  SFdiv_core_binary 53 1024 (Zpos m) (-1074) 4503599627370496 (-51) =
    (Zpos m / 2, -1074,
     if Z.even (Zpos m) then loc_Exact else loc_Inexact Eq).
Proof.
  intros Hd. unfold SFdiv_core_binary. cbn [Zdigits2].
  change (Zpos (digits2_pos 4503599627370496)) with 53.
  rewrite fexp64.
  replace (Z.min (Z.max (Zpos (digits2_pos m) + -1074 - (53 + -51) - 53) (-1074))
             (-1074 - -51)) with (-1074) by lia.
  change (-1074 - -51 - -1074) with 51. cbv iota.
  rewrite Z.shiftl_mul_pow2 by lia.
  pose proof (Z.div_mod (Zpos m) 2 ltac:(lia)) as Hdm.
  pose proof (Zmod_even (Zpos m)) as Hev.
  rewrite (div_eucl_unique _ 4503599627370496 (Zpos m / 2)
             ((Zpos m mod 2) * 2 ^ 51)).
  - unfold new_location. change (Z.even 4503599627370496) with true. cbv iota.
    unfold new_location_even. rewrite Hev.
    destruct (Z.even (Zpos m)); reflexivity.
  - rewrite Hev. destruct (Z.even (Zpos m)); cbn; lia.
  - change 4503599627370496 with (2 * 2 ^ 51). lia.
Qed.

Lemma SF64div_two_least s m :
  valid_binary (S754_finite s m (-1074)) = true -> m <> 1%positive ->
  exists q, SF64div (S754_finite s m (-1074)) SFtwo = S754_finite s q (-1074).
Proof.
  intros Hv Hm. destruct (valid_digits s m (-1074) Hv) as [Hd _].
  unfold SF64div, SFdiv, SFtwo. change prec with 53. change emax with 1024.
  rewrite (SFdiv_core_two_least m Hd).
  replace (xorb s false) with s by (destruct s; reflexivity).
  pose proof (Z.div_mod (Zpos m) 2 ltac:(lia)) as Hdm.
  pose proof (Z.mod_pos_bound (Zpos m) 2 ltac:(lia)) as Hmod.
  pose proof (digits2_pos_lt m 53 Hd) as Hlt.
  assert (Hq : 1 <= Zpos m / 2 < 2 ^ 52).
  { change (2 ^ 53) with (2 * 2 ^ 52) in Hlt. lia. }
  destruct (Zpos m / 2) as [| p | p] eqn:Ep; try lia.
  assert (Hround : forall q : positive, Zpos q <= 2 ^ 52 ->
            (let '(mrs, e) := shr_fexp 53 1024 (Zpos q) (-1074) loc_Exact in
             match shr_m mrs with
             | 0 => S754_zero s
             | Zpos m0 =>
                 if e <=? 1024 - 53 then S754_finite s m0 e else S754_infinity s
             | Zneg _ => S754_nan
             end) = S754_finite s q (-1074)).
  { intros q Hqb. unfold shr_fexp, shr. cbn [Zdigits2 shr_record_of_loc].
    assert (Hdq : Zpos (digits2_pos q) <= 53).
    { apply digits2_pos_le; [lia |]. change (2 ^ 53) with (2 * 2 ^ 52). lia. }
    rewrite fexp64.
    replace (Z.max (Zpos (digits2_pos q) + -1074 - 53) (-1074) - -1074) with 0
      by lia.
    reflexivity. }
  assert (Hdp : Zpos (digits2_pos p) <= 52) by (apply digits2_pos_le; lia).
  unfold binary_round_aux.
  assert (Hfirst : forall l, shr_fexp 53 1024 (Zpos p) (-1074) l =
            (shr_record_of_loc (Zpos p) l, -1074)).
  { intros l. unfold shr_fexp, shr. cbn [Zdigits2]. rewrite fexp64.
    replace (Z.max (Zpos (digits2_pos p) + -1074 - 53) (-1074) - -1074) with 0
      by lia.
    reflexivity. }
  rewrite Hfirst.
  destruct (Z.even (Zpos m)); cbn [shr_record_of_loc shr_m loc_of_shr_record
                                     round_nearest_even].
  - exists p. apply Hround. lia.
  - destruct (Z.even (Zpos p)).
    + exists p. apply Hround. lia.
    + exists (p + 1)%positive. change (Zpos p + 1) with (Zpos (p + 1)).
      apply Hround. lia.
Qed.

Lemma mul_one_l (x : float) : (1 * x)%float = x.
Proof.
  apply Prim2SF_inj. rewrite mul_spec.
  change (Prim2SF 1) with SFone. apply SF64mul_one_l, Prim2SF_valid.
Qed.

Lemma mul_minus_one_l (x : float) : (-1 * x)%float = (- x)%float.
Proof.
  apply Prim2SF_inj. rewrite mul_spec, opp_spec.
  change (Prim2SF (-1)) with (SFopp SFone).
  apply SF64mul_minus_one_l, Prim2SF_valid.
Qed.

(** What the comparisons say about the representation. *)
Lemma ltb_zero_pos (h : float) :
  (0 <? h)%float = true ->
  Prim2SF h = S754_infinity false \/
  exists m e, Prim2SF h = S754_finite false m e.
Proof.
  rewrite ltb_spec. change (Prim2SF 0) with (S754_zero false).
  destruct (Prim2SF h) as [s | s | | s m e]; cbn; try discriminate.
  - destruct s; [discriminate | now left].
  - destruct s; [discriminate |]. right. now exists m, e.
Qed.

Lemma pos_ltb_zero (h : float) :
  Prim2SF h = S754_infinity false \/
  (exists m e, Prim2SF h = S754_finite false m e) ->
  (0 <? h)%float = true.
Proof.
  rewrite ltb_spec. change (Prim2SF 0) with (S754_zero false).
  intros [-> | (m & e & ->)]; reflexivity.
Qed.

Lemma above_least_spec (a : float) :
  above_least a = true ->
  Prim2SF a = S754_infinity false \/
  exists m e, Prim2SF a = S754_finite false m e /\
    (-1073 <= e \/ e = -1074 /\ m <> 1%positive).
Proof.
  unfold above_least. rewrite ltb_spec.
  change (Prim2SF 0x1p-1074) with (S754_finite false 1 (-1074)).
  destruct (Prim2SF a) as [s | s | | s m e]; cbn [SFltb SFcompare];
    try discriminate.
  - destruct s; [discriminate | now left].
  - destruct s; [discriminate |]. intros H. right. exists m, e.
    split; [reflexivity |].
    destruct (Z.compare_spec (-1074) e) as [He | He | He]; try discriminate.
    + right. split; [lia |]. intros ->. discriminate.
    + left. lia.
Qed.

Lemma in_range_spec (a : float) :
  in_range a = true ->
  exists m e, Prim2SF a = S754_finite false m e /\
    Zpos (digits2_pos m) = 53 /\ -1073 <= e <= 971.
Proof.
  unfold in_range. intros H. apply andb_true_iff in H. destruct H as [Hlo Hhi].
  rewrite leb_spec in Hlo, Hhi. pose proof (Prim2SF_valid a) as Hv.
  change (Prim2SF 0x1p-1021) with (S754_finite false 4503599627370496 (-1073))
    in Hlo.
  destruct (Prim2SF a) as [s | s | | s m e]; cbn [SFleb SFcompare] in Hlo, Hhi;
    try discriminate.
  - destruct s; discriminate.
  - destruct s; [discriminate |].
    assert (He : -1073 <= e).
    { destruct (Z.compare_spec (-1073) e); try discriminate; lia. }
    exists m, e. split; [reflexivity |].
    destruct (valid_finite false m e Hv) as [_ Hmax].
    split; [exact (valid_normal false m e Hv He) | lia].
Qed.

(** Halving. *)
Lemma half_in_range (a : float) (m : positive) (e : Z) :
  Prim2SF a = S754_finite false m e -> -1073 <= e ->
  Prim2SF (a / 2) = S754_finite false m (e - 1).
Proof.
  intros Ha He. rewrite div_spec, Ha. change (Prim2SF 2) with SFtwo.
  apply SF64div_two_normal; [| exact He].
  rewrite <- Ha. apply Prim2SF_valid.
Qed.

Lemma half_above_least (a : float) :
  above_least a = true -> (0 <? a / 2)%float = true.
Proof.
  intros H. apply pos_ltb_zero.
  destruct (above_least_spec a H) as [Ha | (m & e & Ha & [He | [He Hm]])].
  - left. rewrite div_spec, Ha. reflexivity.
  - right. exists m, (e - 1). now apply half_in_range.
  - right. subst e. rewrite div_spec, Ha. change (Prim2SF 2) with SFtwo.
    destruct (SF64div_two_least false m) as [q Hq]; [| exact Hm |].
    + rewrite <- Ha. apply Prim2SF_valid.
    + exists q, (-1074). exact Hq.
Qed.

(** A positive number and its negation are numerically different, and a
    positive number is numerically equal to itself. *)
Lemma eqb_opp_pos (h : float) :
  (0 <? h)%float = true ->
  (- h =? h)%float = false /\ (h =? - h)%float = false /\
  (h =? h)%float = true /\ (- h =? - h)%float = true.
Proof.
  intros H. rewrite !FloatAxioms.eqb_spec, !opp_spec.
  destruct (ltb_zero_pos h H) as [-> | (m & e & ->)]; cbn.
  - repeat split.
  - unfold SFeqb. cbn. rewrite Z.compare_refl, Pos.compare_cont_refl.
    repeat split.
Qed.

(** The product of [k] and a normal number in range is a normal number,
    within relative error [2^-53] of the exact product. *)
Lemma SF64mul_k (m : positive) (e : Z) :
  Zpos (digits2_pos m) = 53 -> -1073 <= e <= 971 ->
  exists m' e',
    SF64mul SFk (S754_finite false m e) = S754_finite false m' e' /\
    e - 1 <= e' /\
    2 ^ 53 * Z.abs (Zpos m' * 2 ^ (e' - (e - 53)) - 7800463371553962 * Zpos m)
      <= 7800463371553962 * Zpos m.
Proof.
  intros Hd He. pose proof (digits2_pos_bounds m) as Hm. rewrite Hd in Hm.
  change (2 ^ (53 - 1)) with 4503599627370496 in Hm.
  change (2 ^ 53) with 9007199254740992 in Hm.
  unfold SF64mul, SFmul, SFk. cbn [xorb]. change prec with 53.
  change emax with 1024.
  remember (7800463371553962 * m)%positive as M eqn:DM.
  assert (HM : Zpos M = 7800463371553962 * Zpos m) by (subst M; lia).
  assert (Hlo : 105 <= Zpos (digits2_pos M)).
  { pose proof (digits2_pos_lt M 104) as Hlt.
    change (2 ^ 104) with 20282409603651670423947251286016 in Hlt. lia. }
  assert (Hhi : Zpos (digits2_pos M) <= 106).
  { apply digits2_pos_le; [lia |].
    change (2 ^ 106) with 81129638414606681695789005144064. lia. }
  destruct (binary_round_aux_normal false M (-53 + e))
    as (m' & e' & Hr & Hb & Hd' & Herr); try lia.
  exists m', e'. rewrite HM in Herr.
  replace (e' - (-53 + e)) with (e' - (e - 53)) in Herr by lia.
  assert (Hn : e - 1 <= e') by lia.
  split; [| split; [exact Hn | exact Herr]].
  rewrite Hr.
  destruct (Z.leb_spec e' 971) as [Hle | Hgt]; [reflexivity | exfalso].
  pose proof (digits2_pos_bounds m') as Hm'. rewrite Hd' in Hm'.
  change (2 ^ (53 - 1)) with 4503599627370496 in Hm'.
  assert (Hpow : 2 ^ 54 <= 2 ^ (e' - (e - 53)))
    by (apply Z.pow_le_mono_r; lia).
  change (2 ^ 54) with 18014398509481984 in Hpow.
  change (2 ^ 53) with 9007199254740992 in Herr.
  remember (2 ^ (e' - (e - 53))) as P eqn:DP.
  assert (18014398509481984 * 4503599627370496 <= Zpos m' * P) by nia.
  lia.
Qed.

(** Negation commutes with rounding, hence with halving. *)
Lemma SFopp_involutive (x : spec_float) : SFopp (SFopp x) = x.
Proof.
  destruct x as [s | s | | s m e]; cbn; rewrite ?negb_involutive; reflexivity.
Qed.

Lemma opp_involutive (x : float) : (- - x)%float = x.
Proof. apply Prim2SF_inj. rewrite !opp_spec. apply SFopp_involutive. Qed.

Lemma binary_round_aux_opp (s : bool) (m e : Z) (l : location) :
  SFopp (binary_round_aux 53 1024 s m e l) =
  binary_round_aux 53 1024 (negb s) m e l.
Proof.
  unfold binary_round_aux.
  destruct (shr_fexp 53 1024 m e l) as [mrs e1].
  destruct (shr_fexp 53 1024 _ e1 loc_Exact) as [mrs' e2].
  destruct (shr_m mrs') as [| p | p]; [reflexivity | | reflexivity].
  destruct (e2 <=? 1024 - 53); reflexivity.
Qed.

Lemma SF64div_opp_two (x : spec_float) :
  SF64div (SFopp x) SFtwo = SFopp (SF64div x SFtwo).
Proof.
  unfold SF64div, SFtwo. change prec with 53. change emax with 1024.
  destruct x as [s | s | | s m e]; cbn [SFopp SFdiv];
    try (destruct s; reflexivity); try reflexivity.
  destruct (SFdiv_core_binary 53 1024 (Zpos m) e 4503599627370496 (-51))
    as [[mz ez] lz].
  rewrite binary_round_aux_opp. destruct s; reflexivity.
Qed.

Lemma div_opp_two (a : float) : (- a / 2)%float = (- (a / 2))%float.
Proof.
  apply Prim2SF_inj. rewrite div_spec, !opp_spec, div_spec.
  change (Prim2SF 2) with SFtwo. apply SF64div_opp_two.
Qed.

(** In range the computed semi-axis is above the computed half-dimension,
    as binary64 numbers. *)
Lemma ltb_half_radius (a : float) :
  in_range a = true -> (a / 2 <? B64.k * a)%float = true.
Proof.
  intros H. destruct (in_range_spec a H) as (m & e & Ha & Hd & He).
  destruct (SF64mul_k m e Hd He) as (m' & e' & Hmul & He' & Herr).
  rewrite ltb_spec, (half_in_range a m e Ha) by lia.
  rewrite mul_spec, Ha. change (Prim2SF B64.k) with SFk. rewrite Hmul.
  unfold SFltb. cbn [SFcompare].
  destruct (Z.compare_spec (e - 1) e') as [Heq | Hlt | Hgt];
    [| reflexivity | lia].
  replace (e' - (e - 53)) with 52 in Herr by lia.
  change (2 ^ 52) with 4503599627370496 in Herr.
  change (2 ^ 53) with 9007199254740992 in Herr.
  assert (Hm : (m < m')%positive) by lia.
  rewrite Pos.compare_cont_spec, (proj2 (Pos.compare_lt_iff m m') Hm).
  reflexivity.
Qed.

End Binary64.

(** ** Real values of the computed numbers *)

Lemma IZR_pow2 (n : Z) : (0 <= n)%Z -> IZR (2 ^ n) = powerRZ 2 n.
Proof.
  destruct n as [| p | p]; intros Hn; [reflexivity | | lia].
  apply (Zpower_pos_powerRZ 2 p).
Qed.

Lemma powerRZ2_pos (e : Z) : 0 < powerRZ 2 e.
Proof. apply powerRZ_lt. lra. Qed.

Lemma powerRZ2_pred (e : Z) : powerRZ 2 (e - 1) = powerRZ 2 e / 2.
Proof.
  unfold Z.sub. rewrite powerRZ_add by lra.
  change (powerRZ 2 (- (1))) with (/ (2 * 1)). lra.
Qed.

Lemma B2R_finite (a : float) s m e :
  Prim2SF a = S754_finite s m e ->
  B2R a = IZR (cond_Zopp s (Zpos m)) * powerRZ 2 e.
Proof. unfold B2R. intros ->. reflexivity. Qed.

Lemma B2R_opp (x : float) : B2R (- x) = - B2R x.
Proof.
  unfold B2R. rewrite opp_spec.
  destruct (Prim2SF x) as [s | s | | s m e]; cbn [SFopp SF2R]; try lra.
  destruct s; cbn [negb cond_Zopp]; rewrite ?opp_IZR; lra.
Qed.

Lemma B2R_pm64 (bit : bool) (h : float) : B2R (pm64 bit h) = pm bit (B2R h).
Proof. destruct bit; [reflexivity | apply B2R_opp]. Qed.

Lemma B2R_in_range_pos (a : float) : in_range a = true -> 0 < B2R a.
Proof.
  intros H. destruct (in_range_spec a H) as (m & e & Ha & _).
  rewrite (B2R_finite a _ _ _ Ha). cbn [cond_Zopp].
  apply Rmult_lt_0_compat; [apply IZR_lt; lia | apply powerRZ2_pos].
Qed.

Lemma B2R_half (a : float) : in_range a = true -> B2R (a / 2) = B2R a / 2.
Proof.
  intros H. destruct (in_range_spec a H) as (m & e & Ha & _ & He).
  rewrite (B2R_finite a _ _ _ Ha).
  rewrite (B2R_finite (a / 2) false m (e - 1))
    by (apply half_in_range; [exact Ha | lia]).
  rewrite powerRZ2_pred. lra.
Qed.

Lemma B2R_k : B2R B64.k = 7800463371553962 / 9007199254740992.
Proof.
  unfold B2R. change (Prim2SF B64.k) with SFk. unfold SFk, SF2R.
  cbn [cond_Zopp]. change (powerRZ 2 (-53)) with (/ 2 ^ 53). lra.
Qed.

Lemma k64_error : Rabs (B2R B64.k - sqrt 3 / 2) <= / 2 ^ 54.
Proof.
  rewrite B2R_k.
  assert (Hlo : (2 * 7800463371553962 - 1) / 9007199254740992 <= sqrt 3).
  { rewrite <- (sqrt_Rsqr ((2 * 7800463371553962 - 1) / 9007199254740992))
      by lra.
    apply sqrt_le_1_alt. unfold Rsqr. lra. }
  assert (Hhi : sqrt 3 <= (2 * 7800463371553962 + 1) / 9007199254740992).
  { rewrite <- (sqrt_Rsqr ((2 * 7800463371553962 + 1) / 9007199254740992))
      by lra.
    apply sqrt_le_1_alt. unfold Rsqr. lra. }
  apply Rabs_le. lra.
Qed.

(** The computed product [k * a] against the exact product of the two
    binary64 values. *)
Lemma B2R_mul_k (a : float) :
  in_range a = true ->
  Rabs (B2R (B64.k * a) - B2R B64.k * B2R a) <= / 2 ^ 53 * (B2R B64.k * B2R a).
Proof.
  intros H. destruct (in_range_spec a H) as (m & e & Ha & Hd & He).
  destruct (SF64mul_k m e Hd He) as (m' & e' & Hmul & He' & Herr).
  assert (Hn : (0 <= e' - (e - 53))%Z) by lia.
  assert (Hp : Prim2SF (B64.k * a) = S754_finite false m' e').
  { rewrite mul_spec, Ha. change (Prim2SF B64.k) with SFk. exact Hmul. }
  rewrite (B2R_finite _ _ _ _ Hp), (B2R_finite a _ _ _ Ha).
  unfold B2R. change (Prim2SF B64.k) with SFk. unfold SFk, SF2R.
  cbn [cond_Zopp].
  remember (e' - (e - 53))%Z as n eqn:Dn.
  assert (H1 : powerRZ 2 e' = IZR (2 ^ n) * powerRZ 2 (e - 53)).
  { rewrite (IZR_pow2 n Hn), <- powerRZ_add by lra. f_equal. lia. }
  assert (H2 : powerRZ 2 e = 2 ^ 53 * powerRZ 2 (e - 53)).
  { change (2 ^ 53) with (powerRZ 2 53). rewrite <- powerRZ_add by lra.
    f_equal. lia. }
  rewrite H1, H2. clear H1 H2.
  change (powerRZ 2 (-53)) with (/ 2 ^ 53).
  pose proof (powerRZ2_pos (e - 53)) as HE.
  remember (powerRZ 2 (e - 53)) as pE eqn:DpE.
  apply IZR_le in Herr. rewrite mult_IZR, abs_IZR, minus_IZR, !mult_IZR in Herr.
  change (IZR (2 ^ 53)) with (IZR (2 ^ Z.of_nat 53)) in Herr.
  rewrite <- pow_IZR in Herr.
  remember (IZR (Zpos m')) as x'. remember (IZR (2 ^ n)) as pn.
  remember (IZR (Zpos m)) as x.
  replace (x' * (pn * pE) - 7800463371553962 * / 2 ^ 53 * (x * (2 ^ 53 * pE)))
    with ((x' * pn - 7800463371553962 * x) * pE) by (field; lra).
  replace (/ 2 ^ 53 * (7800463371553962 * / 2 ^ 53 * (x * (2 ^ 53 * pE))))
    with (/ 2 ^ 53 * (7800463371553962 * x) * pE) by (field; lra).
  rewrite Rabs_mult, (Rabs_pos_eq pE) by lra.
  apply Rmult_le_compat_r; [lra |].
  apply (Rmult_le_reg_l (2 ^ 53)); [lra |].
  replace (2 ^ 53 * (/ 2 ^ 53 * (7800463371553962 * x)))
    with (7800463371553962 * x) by (field; lra).
  exact Herr.
Qed.

(** * Properties that rounding decides *)

(** ** The vertex array in binary64 *)

(** The products with [-1] and [1] are exact, so every row is a sign
    combination of the computed half-dimensions, for all inputs. *)
Lemma corners64_as_map (a b c : float) :
  B64.corners a b c =
  map (fun '(bx, byy, bz) => sign_combination64 a b c bx byy bz) bit_patterns.
Proof.
  unfold B64.corners, bit_patterns, sign_combination64, signs.
  cbn [flat_map map app pm64].
  change (B64.of_int (-1)) with (-1)%float.
  change (B64.of_int 1) with 1%float.
  rewrite !mul_one_l, !mul_minus_one_l. reflexivity.
Qed.

Lemma corners64_length (a b c : float) :
  List.length (B64.corners a b c) = 8%nat.
Proof. reflexivity. Qed.

(** Numerical equality of two sign combinations of positive halves is
    equality of the bits. *)
Lemma pm64_eqb (h : float) (bit bit' : bool) :
  (0 <? h)%float = true ->
  (pm64 bit h =? pm64 bit' h)%float = Bool.eqb bit bit'.
Proof.
  intros H. destruct (eqb_opp_pos h H) as (H1 & H2 & H3 & H4).
  destruct bit, bit'; cbn [pm64 Bool.eqb]; assumption.
Qed.

(** C1.  For binary64 dimensions above the least positive number [2^-1074]
    the computed half-dimensions are strictly positive, the vertex array has
    exactly eight rows, the row at index [4*bitX + 2*bitY + bitZ] is the
    vertex [(+-hx, +-hy, +-hz)] of the computed halves whose signs are given
    by the three bits (0 for [-], 1 for [+]), the rows are exactly the eight
    sign combinations, and two rows are equal as numbers only when their
    indices are equal: no vertex occurs twice.  The computed half of a
    dimension that is at least [2^-1021] (and finite) is exactly its half. *)
Theorem corners64_sign_combinations (a b c : float) :
  above_least a = true -> above_least b = true -> above_least c = true ->
  let cs := B64.corners a b c in
  ((0 <? a / 2)%float = true /\ (0 <? b / 2)%float = true /\
   (0 <? c / 2)%float = true) /\
  List.length cs = 8%nat /\
  (forall bx byy bz,
     nth_error cs (bit_index bx byy bz) =
     Some (sign_combination64 a b c bx byy bz)) /\
  (forall p, In p cs <->
             exists bx byy bz, p = sign_combination64 a b c bx byy bz) /\
  (forall i j, (i < 8)%nat -> (j < 8)%nat ->
     row_eqb (nth i cs []) (nth j cs []) = (i =? j)%nat) /\
  (forall d, In d [a; b; c] -> in_range d = true -> B2R (d / 2) = B2R d / 2).
Proof.
  intros Ha Hb Hc cs.
  pose proof (half_above_least a Ha) as Hx.
  pose proof (half_above_least b Hb) as Hy.
  pose proof (half_above_least c Hc) as Hz.
  split; [repeat split; assumption |].
  subst cs. rewrite corners64_as_map.
  split; [reflexivity |]. split; [| split; [| split]].
  - intros bx byy bz.
    rewrite nth_error_map, bit_patterns_index. reflexivity.
  - intros p. rewrite in_map_iff. split.
    + intros [[[bx byy] bz] [<- _]]. now exists bx, byy, bz.
    + intros (bx & byy & bz & ->). exists (bx, byy, bz).
      split; [reflexivity | apply bit_patterns_complete].
  - intros i j Hi Hj. enum8 i; enum8 j;
      cbn [bit_patterns flat_map map app nth sign_combination64 row_eqb];
      rewrite !(pm64_eqb _ _ _ Hx), !(pm64_eqb _ _ _ Hy), !(pm64_eqb _ _ _ Hz);
      reflexivity.
  - intros d _ Hd. apply B2R_half, Hd.
Qed.

(** The theorem at the dimensions of the example run, [a=10, b=50, c=1.5]. *)
Lemma corners64_sign_combinations_witness :
  let cs := B64.corners 10 50 1.5 in
  ((0 <? 10 / 2)%float = true /\ (0 <? 50 / 2)%float = true /\
   (0 <? 1.5 / 2)%float = true) /\
  List.length cs = 8%nat /\
  (forall bx byy bz,
     nth_error cs (bit_index bx byy bz) =
     Some (sign_combination64 10 50 1.5 bx byy bz)) /\
  (forall p, In p cs <->
             exists bx byy bz, p = sign_combination64 10 50 1.5 bx byy bz) /\
  (forall i j, (i < 8)%nat -> (j < 8)%nat ->
     row_eqb (nth i cs []) (nth j cs []) = (i =? j)%nat) /\
  (forall d, In d [10; 50; 1.5]%float -> in_range d = true ->
     B2R (d / 2) = B2R d / 2).
Proof. apply (corners64_sign_combinations 10 50 1.5); reflexivity. Defined.

(** Positivity alone is not enough.  At the least positive dimension [a] is
    strictly positive, its half rounds to zero, and each of the rows 0-3 is
    equal, as numbers, to the row four places further. *)
Lemma corners64_least_positive_duplicates :
  let a := 0x1p-1074%float in
  let cs := B64.corners a 1 1 in
  (0 <? a)%float = true /\
  (a / 2 =? 0)%float = true /\
  map (fun n => row_eqb (nth n cs []) (nth (n + 4) cs [])) [0; 1; 2; 3]%nat =
    [true; true; true; true].
Proof. repeat split. Qed.

(** ** The semi-axes in binary64 *)

Lemma Rabs_le_bounds (x y : R) : Rabs x <= y -> - y <= x <= y.
Proof.
  intros H. pose proof (Rle_abs x) as H1. pose proof (Rle_abs (- x)) as H2.
  rewrite Rabs_Ropp in H2. lra.
Qed.

(** The computed semi-axis against the exact one, [sqrt 3 / 2] times the
    dimension: the rounding of [np.sqrt(3)/2] and of the product together
    cost at most a relative [2^-52]. *)
Lemma radius_error (a : float) :
  in_range a = true ->
  Rabs (B2R (B64.k * a) - k * B2R a) <= / 2 ^ 52 * (k * B2R a).
Proof.
  intros H. pose proof (B2R_mul_k a H) as HP. pose proof k64_error as HK.
  pose proof (B2R_in_range_pos a H) as HA. fold k in HK.
  rewrite B2R_k in HP, HK.
  apply Rabs_le_bounds in HP. apply Rabs_le_bounds in HK.
  remember (B2R a) as A eqn:DA. remember (B2R (B64.k * a)) as P eqn:DP.
  assert (HT : (7800463371553962 / 9007199254740992 - / 2 ^ 54) * A <= k * A
               <= (7800463371553962 / 9007199254740992 + / 2 ^ 54) * A)
    by (split; apply Rmult_le_compat_r; lra).
  remember (k * A) as T eqn:DT.
  apply Rabs_le. lra.
Qed.

Lemma radius_pos (a : float) : in_range a = true -> 0 < B2R (B64.k * a).
Proof.
  intros H. pose proof (radius_error a H) as HP. apply Rabs_le_bounds in HP.
  pose proof (B2R_in_range_pos a H) as HA. pose proof k_pos as Hk.
  assert (HT : 0 < k * B2R a) by (apply Rmult_lt_0_compat; assumption).
  remember (k * B2R a) as T. lra.
Qed.

Lemma radius_ratio (a : float) :
  in_range a = true ->
  Rabs (B2R (B64.k * a) / B2R a - k) <= / 2 ^ 52 * k.
Proof.
  intros H. pose proof (radius_error a H) as HP.
  pose proof (B2R_in_range_pos a H) as HA.
  replace (B2R (B64.k * a) / B2R a - k)
    with ((B2R (B64.k * a) - k * B2R a) * / B2R a) by (field; lra).
  rewrite Rabs_mult, Rabs_inv, (Rabs_pos_eq (B2R a)) by lra.
  apply (Rmult_le_reg_r (B2R a)); [exact HA |].
  rewrite Rmult_assoc, Rinv_l by lra. lra.
Qed.

Lemma k_lt_1 : k < 1.
Proof. pose proof k_pos. pose proof k_sqr. nra. Qed.

(** The real values of the floats written in a goal, as quotients of
    integers. *)
Ltac b2r_eval :=
  repeat match goal with
  | |- context [B2R ?x] =>
      let v := eval vm_compute in (Prim2SF x) in
      change (B2R x) with (SF2R v)
  end;
  cbn [SF2R cond_Zopp];
  repeat match goal with
  | |- context [powerRZ 2 (Zneg ?p)] =>
      let n := eval vm_compute in (Pos.to_nat p) in
      change (powerRZ 2 (Zneg p)) with (/ 2 ^ n)
  | |- context [powerRZ 2 (Zpos ?p)] =>
      let n := eval vm_compute in (Pos.to_nat p) in
      change (powerRZ 2 (Zpos p)) with (2 ^ n)
  end.

(** C3.  For binary64 dimensions between [2^-1021] and the largest finite
    number, the computed semi-axes are the rounded products of the
    dimensions with the binary64 number [k = np.sqrt(3)/2], itself within
    [2^-54] of [sqrt 3 / 2]; each is positive and within a relative [2^-52]
    of [(sqrt 3 / 2)] times its dimension, so each of the quotients [rx / a],
    [ry / b], [rz / c] is within a relative [2^-52] of [sqrt 3 / 2] and any
    two of them differ by at most [2^-51]: the ratio [rx : ry : rz] is
    [a : b : c] up to this rounding. *)
Theorem radii64_semi_axes (a b c : float) :
  in_range a = true -> in_range b = true -> in_range c = true ->
  let '(rx, ry, rz) := B64.l_radii (B64.geometry a b c) in
  (rx = (B64.k * a)%float /\ ry = (B64.k * b)%float /\
   rz = (B64.k * c)%float /\ Rabs (B2R B64.k - sqrt 3 / 2) <= / 2 ^ 54) /\
  (Rabs (B2R rx - sqrt 3 / 2 * B2R a) <= / 2 ^ 52 * (sqrt 3 / 2 * B2R a) /\
   Rabs (B2R ry - sqrt 3 / 2 * B2R b) <= / 2 ^ 52 * (sqrt 3 / 2 * B2R b) /\
   Rabs (B2R rz - sqrt 3 / 2 * B2R c) <= / 2 ^ 52 * (sqrt 3 / 2 * B2R c)) /\
  (0 < B2R rx /\ 0 < B2R ry /\ 0 < B2R rz) /\
  (Rabs (B2R rx / B2R a - sqrt 3 / 2) <= / 2 ^ 52 * (sqrt 3 / 2) /\
   Rabs (B2R ry / B2R b - sqrt 3 / 2) <= / 2 ^ 52 * (sqrt 3 / 2) /\
   Rabs (B2R rz / B2R c - sqrt 3 / 2) <= / 2 ^ 52 * (sqrt 3 / 2)) /\
  (Rabs (B2R rx / B2R a - B2R ry / B2R b) <= / 2 ^ 51 /\
   Rabs (B2R ry / B2R b - B2R rz / B2R c) <= / 2 ^ 51 /\
   Rabs (B2R rx / B2R a - B2R rz / B2R c) <= / 2 ^ 51).
Proof.
  intros Ha Hb Hc. cbn [B64.geometry B64.l_radii B64.radii]. fold k.
  pose proof (radius_ratio a Ha) as Qa. pose proof (radius_ratio b Hb) as Qb.
  pose proof (radius_ratio c Hc) as Qc.
  split; [repeat split; apply k64_error |].
  split; [repeat split; apply radius_error; assumption |].
  split; [repeat split; apply radius_pos; assumption |].
  split; [repeat split; assumption |].
  apply Rabs_le_bounds in Qa, Qb, Qc.
  pose proof k_pos as Hk0. pose proof k_lt_1 as Hk1.
  repeat split; apply Rabs_le; lra.
Qed.

Lemma radii64_semi_axes_witness :
  let '(rx, ry, rz) := B64.l_radii (B64.geometry 10 50 1.5) in
  (rx = (B64.k * 10)%float /\ ry = (B64.k * 50)%float /\
   rz = (B64.k * 1.5)%float /\ Rabs (B2R B64.k - sqrt 3 / 2) <= / 2 ^ 54) /\
  (Rabs (B2R rx - sqrt 3 / 2 * B2R 10) <= / 2 ^ 52 * (sqrt 3 / 2 * B2R 10) /\
   Rabs (B2R ry - sqrt 3 / 2 * B2R 50) <= / 2 ^ 52 * (sqrt 3 / 2 * B2R 50) /\
   Rabs (B2R rz - sqrt 3 / 2 * B2R 1.5) <= / 2 ^ 52 * (sqrt 3 / 2 * B2R 1.5)) /\
  (0 < B2R rx /\ 0 < B2R ry /\ 0 < B2R rz) /\
  (Rabs (B2R rx / B2R 10 - sqrt 3 / 2) <= / 2 ^ 52 * (sqrt 3 / 2) /\
   Rabs (B2R ry / B2R 50 - sqrt 3 / 2) <= / 2 ^ 52 * (sqrt 3 / 2) /\
   Rabs (B2R rz / B2R 1.5 - sqrt 3 / 2) <= / 2 ^ 52 * (sqrt 3 / 2)) /\
  (Rabs (B2R rx / B2R 10 - B2R ry / B2R 50) <= / 2 ^ 51 /\
   Rabs (B2R ry / B2R 50 - B2R rz / B2R 1.5) <= / 2 ^ 51 /\
   Rabs (B2R rx / B2R 10 - B2R rz / B2R 1.5) <= / 2 ^ 51).
Proof. apply (radii64_semi_axes 10 50 1.5); reflexivity. Defined.

(** The exact equalities fail at the example run: the dimensions are the
    reals 10, 50 and 1.5, the computed [rx] is a binary64 number and not
    the irrational [(sqrt 3 / 2) * 10], and the quotients [ry / 50] and
    [rz / 1.5] differ, in exact arithmetic and when evaluated in binary64.
    Below the range of the theorem the relative error is not small: the
    semi-axis computed for the dimension [2^-1074] is [2^-1074] itself. *)
Lemma radii64_inexact :
  let '(rx, ry, rz) := B64.radii 10 50 1.5 in
  (B2R 10 = 10 /\ B2R 50 = 50 /\ B2R 1.5 = 1.5) /\
  B2R rx <> sqrt 3 / 2 * 10 /\
  B2R ry / 50 <> B2R rz / 1.5 /\
  (ry / 50 =? rz / 1.5)%float = false /\
  (B64.k * 0x1p-1074 =? 0x1p-1074)%float = true.
Proof.
  cbn [B64.radii]. split; [| split; [| split; [| split]]].
  - b2r_eval. repeat split; lra.
  - b2r_eval. intros H. pose proof sqrt3_sqr as Hs.
    assert (H3 : sqrt 3 = 4875289607221226 * / 2 ^ 49 / 5) by lra.
    rewrite H3 in Hs. lra.
  - b2r_eval. lra.
  - reflexivity.
  - reflexivity.
Qed.

(** ** The vertices and the ellipsoid in binary64 *)

Lemma pm_quotient_sqr bit h r : (pm bit h / r) ^ 2 = (h / r) ^ 2.
Proof. destruct bit; cbn [pm]; unfold Rdiv; ring. Qed.

(** One term of the ellipsoid equation at a computed vertex: the square of
    a computed half-dimension over the computed semi-axis is a third, up to
    a relative [2^-50]. *)
Lemma ellipsoid_term (a : float) (bit : bool) :
  in_range a = true ->
  Rabs ((B2R (pm64 bit (a / 2)) / B2R (B64.k * a)) ^ 2 - / 3)
    <= / 3 * / 2 ^ 50.
Proof.
  intros H. rewrite B2R_pm64, (B2R_half a H), pm_quotient_sqr.
  pose proof (radius_error a H) as HP. apply Rabs_le_bounds in HP.
  pose proof (radius_pos a H) as HP0.
  pose proof (B2R_in_range_pos a H) as HA. pose proof k_pos as Hk.
  pose proof k_sqr as Hkk.
  remember (B2R a) as A eqn:DA. remember (B2R (B64.k * a)) as P eqn:DP.
  assert (HT0 : 0 < k * A) by (apply Rmult_lt_0_compat; assumption).
  assert (HT2 : (k * A) ^ 2 = 3 / 4 * A ^ 2)
    by (rewrite Rpow_mult_distr; replace (k ^ 2) with (k * k) by ring;
        rewrite Hkk; reflexivity).
  remember (k * A) as T eqn:DT.
  assert (Hlo : ((1 - / 2 ^ 52) * T) ^ 2 <= P ^ 2) by (apply pow_incr; lra).
  assert (Hhi : P ^ 2 <= ((1 + / 2 ^ 52) * T) ^ 2) by (apply pow_incr; lra).
  rewrite Rpow_mult_distr in Hlo, Hhi.
  assert (HP2 : 0 < P ^ 2) by (apply pow_lt; exact HP0).
  assert (HT2pos : 0 < T ^ 2) by (apply pow_lt; exact HT0).
  replace ((A / 2 / P) ^ 2) with (T ^ 2 / 3 * / P ^ 2)
    by (rewrite HT2; field; lra).
  remember (T ^ 2) as T2. remember (P ^ 2) as P2.
  assert (Hi : / P2 * P2 = 1) by (apply Rinv_l; lra).
  assert (Hi0 : 0 < / P2) by (apply Rinv_0_lt_compat; exact HP2).
  remember (/ P2) as iP.
  assert (Hup : T2 <= (1 + / 2 ^ 50) * P2) by lra.
  assert (Hdn : (1 - / 2 ^ 50) * P2 <= T2) by lra.
  assert (Hup' : T2 * iP <= (1 + / 2 ^ 50) * P2 * iP)
    by (apply Rmult_le_compat_r; lra).
  assert (Hdn' : (1 - / 2 ^ 50) * P2 * iP <= T2 * iP)
    by (apply Rmult_le_compat_r; lra).
  replace ((1 + / 2 ^ 50) * P2 * iP) with (1 + / 2 ^ 50) in Hup'
    by (rewrite Rmult_assoc, (Rmult_comm P2), Hi; ring).
  replace ((1 - / 2 ^ 50) * P2 * iP) with (1 - / 2 ^ 50) in Hdn'
    by (rewrite Rmult_assoc, (Rmult_comm P2), Hi; ring).
  apply Rabs_le. remember (T2 * iP) as w.
  replace (T2 / 3 * iP) with (w / 3) by (subst w; field). lra.
Qed.

(** C4.  For binary64 dimensions between [2^-1021] and the largest finite
    number and for every one of the eight computed vertices [(x, y, z)],
    the quantity [(x/rx)^2 + (y/ry)^2 + (z/rz)^2], formed in exact
    arithmetic from the computed vertex and the computed semi-axes, is
    within [2^-50] of 1: every vertex lies on the ellipsoid up to the
    rounding of the semi-axes. *)
Theorem corners64_near_ellipsoid (a b c : float) :
  in_range a = true -> in_range b = true -> in_range c = true ->
  let '(rx, ry, rz) := B64.l_radii (B64.geometry a b c) in
  let cs := B64.l_corners (B64.geometry a b c) in
  (forall row, In row cs ->
     exists x y z, row = [x; y; z] /\
       Rabs (ellipsoid_form (B2R rx) (B2R ry) (B2R rz)
               (B2R x) (B2R y) (B2R z) - 1) <= / 2 ^ 50) /\
  (forall n, (n < 8)%nat ->
     Rabs (ellipsoid_form (B2R rx) (B2R ry) (B2R rz)
             (B2R (coord64 cs n 0)) (B2R (coord64 cs n 1))
             (B2R (coord64 cs n 2)) - 1) <= / 2 ^ 50).
Proof.
  intros Ha Hb Hc. cbn [B64.geometry B64.l_radii B64.l_corners B64.radii].
  cbv zeta.
  assert (Hrow : forall row, In row (B64.corners a b c) ->
            exists x y z, row = [x; y; z] /\
              Rabs (ellipsoid_form (B2R (B64.k * a)) (B2R (B64.k * b))
                      (B2R (B64.k * c)) (B2R x) (B2R y) (B2R z) - 1)
                <= / 2 ^ 50).
  { intros row. rewrite corners64_as_map, in_map_iff.
    intros [[[bx byy] bz] [<- _]]. unfold sign_combination64.
    do 3 eexists. split; [reflexivity |]. unfold ellipsoid_form.
    pose proof (ellipsoid_term a bx Ha) as Tx.
    pose proof (ellipsoid_term b byy Hb) as Ty.
    pose proof (ellipsoid_term c bz Hc) as Tz.
    apply Rabs_le_bounds in Tx, Ty, Tz. apply Rabs_le. lra. }
  split; [exact Hrow |].
  intros n Hn. unfold coord64.
  destruct (nth_error (B64.corners a b c) n) as [row |] eqn:E;
    [| apply nth_error_None in E; rewrite corners64_length in E; lia].
  rewrite (nth_error_nth _ _ [] E).
  destruct (Hrow row (nth_error_In _ _ E)) as (x & y & z & -> & Hon).
  exact Hon.
Qed.

(** The cube of edge 2. *)
Lemma corners64_near_ellipsoid_witness :
  let '(rx, ry, rz) := B64.l_radii (B64.geometry 2 2 2) in
  let cs := B64.l_corners (B64.geometry 2 2 2) in
  (forall row, In row cs ->
     exists x y z, row = [x; y; z] /\
       Rabs (ellipsoid_form (B2R rx) (B2R ry) (B2R rz)
               (B2R x) (B2R y) (B2R z) - 1) <= / 2 ^ 50) /\
  (forall n, (n < 8)%nat ->
     Rabs (ellipsoid_form (B2R rx) (B2R ry) (B2R rz)
             (B2R (coord64 cs n 0)) (B2R (coord64 cs n 1))
             (B2R (coord64 cs n 2)) - 1) <= / 2 ^ 50).
Proof. apply (corners64_near_ellipsoid 2 2 2); reflexivity. Defined.

(** The exact equation fails at the cube of edge 2: its last vertex is
    [(1, 1, 1)], the computed semi-axes are the binary64 number nearest to
    [sqrt 3], and the sum of the three squared quotients is not 1, neither
    in exact arithmetic nor evaluated in binary64, where it is
    [1.0000000000000002].  Below the range of the theorem it is far from 1:
    at the dimensions [(2^-1074, 1, 1)] the last vertex has [x = 0] and the
    sum is below [0.7]. *)
Lemma corners64_off_ellipsoid :
  let '(rx, ry, rz) := B64.radii 2 2 2 in
  let '(rx', ry', rz') := B64.radii 0x1p-1074 1 1 in
  nth_error (B64.corners 2 2 2) 7 = Some [1; 1; 1]%float /\
  ~ on_ellipsoid (B2R rx) (B2R ry) (B2R rz) (B2R 1) (B2R 1) (B2R 1) /\
  ellipsoid_form64 rx ry rz 1 1 1 = 0x1.0000000000001p+0%float /\
  (ellipsoid_form64 rx ry rz 1 1 1 =? 1)%float = false /\
  nth_error (B64.corners 0x1p-1074 1 1) 7 = Some [0; 0.5; 0.5]%float /\
  ellipsoid_form (B2R rx') (B2R ry') (B2R rz') (B2R 0) (B2R 0.5) (B2R 0.5)
    < 7 / 10.
Proof.
  cbn [B64.radii]. split; [reflexivity |]. split; [| split; [reflexivity |]].
  - unfold on_ellipsoid. b2r_eval.
    replace (4503599627370496 * / 2 ^ 52 / (7800463371553962 * / 2 ^ 52))
      with (4503599627370496 / 7800463371553962) by (field; lra).
    lra.
  - split; [reflexivity |]. split; [reflexivity |].
    unfold ellipsoid_form. b2r_eval.
    replace (4503599627370496 * / 2 ^ 53 / (7800463371553962 * / 2 ^ 53))
      with (4503599627370496 / 7800463371553962) by (field; lra).
    unfold Rdiv. rewrite Rmult_0_l. lra.
Qed.

(** The same sums evaluated in binary64, at the eight vertices of the cube
    of edge 2 and of the example run: each is 1 or the next binary64
    number. *)
Example ellipsoid_form64_runs :
  (let '(rx, ry, rz) := B64.radii 2 2 2 in
   map (fun n => ellipsoid_form64 rx ry rz
                   (coord64 (B64.corners 2 2 2) n 0)
                   (coord64 (B64.corners 2 2 2) n 1)
                   (coord64 (B64.corners 2 2 2) n 2)) (seq 0 8) =
   repeat 0x1.0000000000001p+0%float 8) /\
  (let '(rx, ry, rz) := B64.radii 10 50 1.5 in
   map (fun n => ellipsoid_form64 rx ry rz
                   (coord64 (B64.corners 10 50 1.5) n 0)
                   (coord64 (B64.corners 10 50 1.5) n 1)
                   (coord64 (B64.corners 10 50 1.5) n 2)) (seq 0 8) =
   repeat 1%float 8).
Proof. split; reflexivity. Qed.

(** ** The binary64 vertex array and the exact one *)

Lemma B2R_zero : B2R 0 = 0.
Proof. reflexivity. Qed.

Lemma coord64_map (cs : list (list float)) (n axis : nat) :
  B2R (coord64 cs n axis) = coord (map (map B2R) cs) n axis.
Proof.
  unfold coord64, coord.
  change (@nil R) with (map B2R []). rewrite map_nth.
  change 0 with (B2R 0%float). rewrite map_nth. reflexivity.
Qed.

(** In range, halving and the products with the signs are exact: the
    binary64 vertex array stands for the vertex array computed in exact
    arithmetic from the same dimensions. *)
Lemma corners64_exact (a b c : float) :
  in_range a = true -> in_range b = true -> in_range c = true ->
  map (map B2R) (B64.corners a b c) = corners (B2R a) (B2R b) (B2R c).
Proof.
  intros Ha Hb Hc. rewrite corners64_as_map, corners_as_map, map_map.
  apply map_ext. intros [[bx byy] bz].
  unfold sign_combination64, sign_combination. cbn [map].
  rewrite !B2R_pm64, (B2R_half a Ha), (B2R_half b Hb), (B2R_half c Hc).
  reflexivity.
Qed.

(** ** Scaling in binary64 *)

Lemma pm_scale s bit h : pm bit (s * h) = s * pm bit h.
Proof. destruct bit; cbn [pm]; ring. Qed.

Lemma corners_coord_scale s a b c n axis :
  coord (corners (s * a) (s * b) (s * c)) n axis =
  s * coord (corners a b c) n axis.
Proof.
  unfold coord. rewrite !corners_as_map.
  destruct (nth_error bit_patterns n) as [[[bx byy] bz] |] eqn:E.
  - rewrite (nth_error_nth _ _ [] (eq_trans (nth_error_map _ _ _)
               (f_equal (option_map _) E))).
    rewrite (nth_error_nth _ _ [] (eq_trans (nth_error_map _ _ _)
               (f_equal (option_map _) E))).
    unfold sign_combination.
    replace (s * a / 2) with (s * (a / 2)) by field.
    replace (s * b / 2) with (s * (b / 2)) by field.
    replace (s * c / 2) with (s * (c / 2)) by field.
    rewrite !pm_scale.
    destruct axis as [| [| [| axis]]]; cbn [nth]; try reflexivity.
    destruct axis; ring.
  - apply nth_error_None in E.
    rewrite !(nth_overflow (map _ bit_patterns) [])
      by (rewrite length_map; exact E).
    destruct axis; cbn [nth]; ring.
Qed.

(** The semi-axis of a scaled dimension against the scaled semi-axis. *)
Lemma radius_scale (s : R) (a a' : float) :
  0 < s -> in_range a = true -> in_range a' = true ->
  B2R a' = s * B2R a ->
  Rabs (B2R (B64.k * a') - s * B2R (B64.k * a))
    <= / 2 ^ 51 * (s * B2R (B64.k * a)).
Proof.
  intros Hs Ha Ha' Hsa.
  pose proof (B2R_mul_k a Ha) as HP. pose proof (B2R_mul_k a' Ha') as HP'.
  pose proof (B2R_in_range_pos a Ha) as HA.
  rewrite B2R_k in HP, HP'. rewrite Hsa in HP'.
  apply Rabs_le_bounds in HP, HP'.
  remember (B2R a) as A. remember (B2R (B64.k * a)) as P.
  remember (B2R (B64.k * a')) as P'.
  assert (HsA : 0 < s * A) by (apply Rmult_lt_0_compat; assumption).
  assert (H1 : s * ((1 - / 2 ^ 53) * (7800463371553962 / 9007199254740992 * A))
               <= s * P) by (apply Rmult_le_compat_l; lra).
  assert (H2 : s * P
               <= s * ((1 + / 2 ^ 53) * (7800463371553962 / 9007199254740992 * A)))
    by (apply Rmult_le_compat_l; lra).
  replace (s * ((1 - / 2 ^ 53) * (7800463371553962 / 9007199254740992 * A)))
    with ((1 - / 2 ^ 53) * (7800463371553962 / 9007199254740992) * (s * A))
    in H1 by ring.
  replace (s * ((1 + / 2 ^ 53) * (7800463371553962 / 9007199254740992 * A)))
    with ((1 + / 2 ^ 53) * (7800463371553962 / 9007199254740992) * (s * A))
    in H2 by ring.
  remember (s * A) as sA. remember (s * P) as sP.
  apply Rabs_le. lra.
Qed.

(** C5.  Let the binary64 dimensions [(a', b', c')] be [(a, b, c)] scaled
    by a positive factor [s], all six between [2^-1021] and the largest
    finite number.  Then every vertex coordinate of the scaled run is
    exactly [s] times the coordinate of the original run; every semi-axis
    is [s] times the original one up to a relative [2^-51]; the edge list is
    the same; and the quotient of a semi-axis by its dimension changes by
    at most [2^-51], so the ratio [rx : ry : rz] stays [a : b : c] up to
    rounding. *)
Theorem scaling64 (s : R) (a b c a' b' c' : float) :
  0 < s ->
  in_range a = true -> in_range b = true -> in_range c = true ->
  in_range a' = true -> in_range b' = true -> in_range c' = true ->
  B2R a' = s * B2R a -> B2R b' = s * B2R b -> B2R c' = s * B2R c ->
  let g := B64.geometry a b c in
  let g' := B64.geometry a' b' c' in
  let '(rx, ry, rz) := B64.l_radii g in
  let '(rx', ry', rz') := B64.l_radii g' in
  (forall n axis,
     B2R (coord64 (B64.l_corners g') n axis) =
     s * B2R (coord64 (B64.l_corners g) n axis)) /\
  (Rabs (B2R rx' - s * B2R rx) <= / 2 ^ 51 * (s * B2R rx) /\
   Rabs (B2R ry' - s * B2R ry) <= / 2 ^ 51 * (s * B2R ry) /\
   Rabs (B2R rz' - s * B2R rz) <= / 2 ^ 51 * (s * B2R rz)) /\
  B64.l_edges g' = B64.l_edges g /\
  (Rabs (B2R rx' / B2R a' - B2R rx / B2R a) <= / 2 ^ 51 /\
   Rabs (B2R ry' / B2R b' - B2R ry / B2R b) <= / 2 ^ 51 /\
   Rabs (B2R rz' / B2R c' - B2R rz / B2R c) <= / 2 ^ 51).
Proof.
  intros Hs Ha Hb Hc Ha' Hb' Hc' Hsa Hsb Hsc.
  cbn [B64.geometry B64.l_radii B64.l_corners B64.l_edges B64.radii].
  split.
  { intros n axis. rewrite !coord64_map, !corners64_exact by assumption.
    rewrite Hsa, Hsb, Hsc. apply corners_coord_scale. }
  split; [repeat split; apply radius_scale; assumption |].
  split; [reflexivity |].
  pose proof (radius_ratio a Ha) as Qa. pose proof (radius_ratio b Hb) as Qb.
  pose proof (radius_ratio c Hc) as Qc.
  pose proof (radius_ratio a' Ha') as Qa'.
  pose proof (radius_ratio b' Hb') as Qb'.
  pose proof (radius_ratio c' Hc') as Qc'.
  apply Rabs_le_bounds in Qa, Qb, Qc, Qa', Qb', Qc'.
  pose proof k_pos as Hk0. pose proof k_lt_1 as Hk1.
  repeat split; apply Rabs_le; lra.
Qed.

(** Doubling the cuboid of the example run. *)
Lemma scaling64_witness :
  let g := B64.geometry 10 50 1.5 in
  let g' := B64.geometry 20 100 3 in
  let '(rx, ry, rz) := B64.l_radii g in
  let '(rx', ry', rz') := B64.l_radii g' in
  (forall n axis,
     B2R (coord64 (B64.l_corners g') n axis) =
     2 * B2R (coord64 (B64.l_corners g) n axis)) /\
  (Rabs (B2R rx' - 2 * B2R rx) <= / 2 ^ 51 * (2 * B2R rx) /\
   Rabs (B2R ry' - 2 * B2R ry) <= / 2 ^ 51 * (2 * B2R ry) /\
   Rabs (B2R rz' - 2 * B2R rz) <= / 2 ^ 51 * (2 * B2R rz)) /\
  B64.l_edges g' = B64.l_edges g /\
  (Rabs (B2R rx' / B2R 20 - B2R rx / B2R 10) <= / 2 ^ 51 /\
   Rabs (B2R ry' / B2R 100 - B2R ry / B2R 50) <= / 2 ^ 51 /\
   Rabs (B2R rz' / B2R 3 - B2R rz / B2R 1.5) <= / 2 ^ 51).
Proof.
  apply (scaling64 2 10 50 1.5 20 100 3);
    try reflexivity; try lra; b2r_eval; lra.
Defined.

(** Exact scaling fails for the factor 3 at the example run: the
    scaled dimensions [(30, 150, 4.5)] are binary64 numbers, three times
    the original ones, but the semi-axis computed for [4.5] is not three
    times the semi-axis computed for [1.5], neither as a real number nor
    when the product with 3 is evaluated in binary64.  Below the range of
    the theorem the vertices do not scale either: from the dimension
    [2^-1074] to its triple the [x] coordinate of the last vertex goes from
    [0] to [2^-1073]. *)
Lemma scaling64_inexact :
  let '(rx, ry, rz) := B64.radii 10 50 1.5 in
  let '(rx', ry', rz') := B64.radii 30 150 4.5 in
  (B2R 30 = 3 * B2R 10 /\ B2R 150 = 3 * B2R 50 /\ B2R 4.5 = 3 * B2R 1.5) /\
  B2R rz' <> 3 * B2R rz /\
  (rz' =? 3 * rz)%float = false /\
  B2R 0x1.8p-1073 = 3 * B2R 0x1p-1074 /\
  B2R (coord64 (B64.corners 0x1.8p-1073 1 1) 7 0) <>
    3 * B2R (coord64 (B64.corners 0x1p-1074 1 1) 7 0).
Proof.
  cbn [B64.radii]. split; [| split; [| split; [reflexivity |]]].
  - b2r_eval. repeat split; lra.
  - b2r_eval. lra.
  - split; b2r_eval; lra.
Qed.

(** * Further properties of the binary64 computation *)

(** ** Edges as segments of the cuboid *)

(** X1.  Lines 10-24 and 35-37, in binary64 and for all inputs: the two
    vertices of every edge agree in two coordinates and are, in the third,
    the computed half-dimension of that axis with sign [-] (at the lower
    index) and with sign [+] (at the higher index), so every segment drawn
    is parallel to an axis; when that dimension is between [2^-1021] and
    the largest finite number, the segment is exactly as long as the
    dimension; four edges run along each axis. *)
Theorem edges64_along_axes (a b c : float) :
  let cs := B64.corners a b c in
  (forall e x, In e edges -> (x < 3)%nat ->
     if (x =? edge_axis e)%nat
     then coord64 cs (fst e) x = (- (dimension64 a b c x / 2))%float /\
          coord64 cs (snd e) x = (dimension64 a b c x / 2)%float
     else coord64 cs (fst e) x = coord64 cs (snd e) x) /\
  (forall e, In e edges ->
     in_range (dimension64 a b c (edge_axis e)) = true ->
     B2R (coord64 cs (snd e) (edge_axis e)) -
     B2R (coord64 cs (fst e) (edge_axis e)) =
     B2R (dimension64 a b c (edge_axis e))) /\
  (forall axis, (axis < 3)%nat ->
     List.length (filter (fun e => (edge_axis e =? axis)%nat) edges) = 4%nat).
Proof.
  cbv zeta.
  assert (Hfirst : forall e x, In e edges -> (x < 3)%nat ->
     if (x =? edge_axis e)%nat
     then coord64 (B64.corners a b c) (fst e) x =
            (- (dimension64 a b c x / 2))%float /\
          coord64 (B64.corners a b c) (snd e) x =
            (dimension64 a b c x / 2)%float
     else coord64 (B64.corners a b c) (fst e) x =
          coord64 (B64.corners a b c) (snd e) x).
  { intros e x Hin Hx. rewrite corners64_as_map.
    unfold edges in Hin. cbn [In] in Hin.
    assert (Hx3 : (x = 0 \/ x = 1 \/ x = 2)%nat) by lia.
    repeat (destruct Hin as [<- | Hin];
            [ destruct Hx3 as [-> | [-> | ->]]; cbn; repeat split |]).
    contradiction. }
  split; [exact Hfirst |]. split.
  - intros e Hin Hr.
    assert (Hax : (edge_axis e < 3)%nat).
    { unfold edges in Hin. cbn [In] in Hin.
      repeat (destruct Hin as [<- | Hin]; [cbn; lia |]). contradiction. }
    specialize (Hfirst e (edge_axis e) Hin Hax).
    rewrite Nat.eqb_refl in Hfirst. destruct Hfirst as [-> ->].
    rewrite B2R_opp, (B2R_half _ Hr). lra.
  - intros axis Haxis.
    assert (H3 : (axis = 0 \/ axis = 1 \/ axis = 2)%nat) by lia.
    destruct H3 as [-> | [-> | ->]]; reflexivity.
Qed.

(** The edge [(2, 6)] of the cuboid [10 x 50 x 1.5] runs along X and has
    length 10. *)
Lemma edges64_along_axes_witness :
  B2R (coord64 (B64.corners 10 50 1.5) 6 0) -
  B2R (coord64 (B64.corners 10 50 1.5) 2 0) = B2R 10.
Proof.
  apply (proj1 (proj2 (edges64_along_axes 10 50 1.5)) (2%nat, 6%nat));
    [cbn; tauto | reflexivity].
Defined.

(** ** Degenerate cuboids *)

Lemma pm64_same_coordinate (h : float) (bit bit' : bool) :
  (pm64 bit h =? pm64 bit' h)%float = same_coordinate h bit bit'.
Proof.
  unfold same_coordinate.
  destruct bit, bit'; cbn [pm64 Bool.eqb];
    rewrite !FloatAxioms.eqb_spec, ?opp_spec;
    change (Prim2SF 0) with (S754_zero false);
    destruct (Prim2SF h) as [[|] | [|] | | [|] m e];
    unfold SFeqb; cbn [SFopp negb SFcompare];
    rewrite ?Z.compare_refl, ?Pos.compare_cont_refl; reflexivity.
Qed.

(** X2.  Lines 7-13, in binary64 and for all inputs: two rows of the vertex
    array are equal as numbers exactly when, on every axis, their signs
    agree and the computed half-dimension is a number, or their signs
    differ and the computed half-dimension is zero.  In particular, when
    the half of [a] computes to zero - for [a = 0] and for the least
    positive number [2^-1074] - and the other two halves are positive, each
    of the rows 0-3 is numerically equal to the row four places further:
    the cuboid is flat and every vertex occurs twice. *)
Theorem corners64_degenerate (a b c : float) :
  let cs := B64.corners a b c in
  (forall bx byy bz bx' byy' bz',
     row_eqb (nth (bit_index bx byy bz) cs [])
             (nth (bit_index bx' byy' bz') cs []) =
     same_coordinate (a / 2) bx bx' && same_coordinate (b / 2) byy byy' &&
     same_coordinate (c / 2) bz bz') /\
  ((a / 2 =? 0)%float = true ->
   (0 <? b / 2)%float = true -> (0 <? c / 2)%float = true ->
   forall n, (n < 4)%nat -> row_eqb (nth n cs []) (nth (n + 4) cs []) = true).
Proof.
  cbv zeta. rewrite corners64_as_map.
  assert (Hgen : forall bx byy bz bx' byy' bz',
     row_eqb (nth (bit_index bx byy bz)
                (map (fun '(bx, byy, bz) => sign_combination64 a b c bx byy bz)
                     bit_patterns) [])
             (nth (bit_index bx' byy' bz')
                (map (fun '(bx, byy, bz) => sign_combination64 a b c bx byy bz)
                     bit_patterns) []) =
     same_coordinate (a / 2) bx bx' && same_coordinate (b / 2) byy byy' &&
     same_coordinate (c / 2) bz bz').
  { intros bx byy bz bx' byy' bz'.
    rewrite !(nth_error_nth _ _ [] (eq_trans (nth_error_map _ _ _)
                (f_equal (option_map _) (bit_patterns_index _ _ _)))).
    unfold sign_combination64. cbn [row_eqb].
    rewrite !pm64_same_coordinate, andb_true_r, andb_assoc. reflexivity. }
  split; [exact Hgen |].
  intros Hx Hy Hz n Hn.
  destruct (eqb_opp_pos _ Hy) as (_ & _ & Hyy & _).
  destruct (eqb_opp_pos _ Hz) as (_ & _ & Hzz & _).
  assert (Hcase : (n = 0 \/ n = 1 \/ n = 2 \/ n = 3)%nat) by lia.
  destruct Hcase as [-> | [-> | [-> | ->]]].
  - etransitivity; [exact (Hgen false false false true false false) |].
    unfold same_coordinate. cbn [Bool.eqb]. now rewrite Hx, Hyy, Hzz.
  - etransitivity; [exact (Hgen false false true true false true) |].
    unfold same_coordinate. cbn [Bool.eqb]. now rewrite Hx, Hyy, Hzz.
  - etransitivity; [exact (Hgen false true false true true false) |].
    unfold same_coordinate. cbn [Bool.eqb]. now rewrite Hx, Hyy, Hzz.
  - etransitivity; [exact (Hgen false true true true true true) |].
    unfold same_coordinate. cbn [Bool.eqb]. now rewrite Hx, Hyy, Hzz.
Qed.

(** At the least positive dimension the first and the fifth row are equal
    as numbers. *)
Lemma corners64_degenerate_witness :
  row_eqb (nth 0 (B64.corners 0x1p-1074 1 1) [])
          (nth (0 + 4) (B64.corners 0x1p-1074 1 1) []) = true.
Proof.
  apply (proj2 (corners64_degenerate 0x1p-1074 1 1)); try reflexivity. lia.
Defined.

(** ** The vertices and the origin *)

Lemma mul_opp_opp (h : float) : (- h * - h)%float = (h * h)%float.
Proof.
  apply Prim2SF_inj. rewrite !mul_spec, opp_spec.
  destruct (Prim2SF h) as [[|] | [|] | | [|] m e]; reflexivity.
Qed.

Lemma pm64_sqr (bit : bool) (h : float) :
  (pm64 bit h * pm64 bit h)%float = (h * h)%float.
Proof. destruct bit; [reflexivity | apply mul_opp_opp]. Qed.

(** X20.  Lines 7-13, in binary64: the squared distance from the origin,
    [x*x + y*y + z*z] evaluated in binary64, is the same number for all
    eight vertices, for all inputs; and for dimensions between [2^-1021]
    and the largest finite number the eight vertices are, in exact
    arithmetic, at the squared distance [(a^2 + b^2 + c^2) / 4] from the
    origin, half the diagonal of the cuboid. *)
Theorem corners64_equidistant (a b c : float) :
  let cs := B64.corners a b c in
  (forall n, (n < 8)%nat ->
     dist2_64 (nth n cs []) =
     (a / 2 * (a / 2) + b / 2 * (b / 2) + c / 2 * (c / 2))%float) /\
  (in_range a = true -> in_range b = true -> in_range c = true ->
   forall n, (n < 8)%nat ->
     B2R (coord64 cs n 0) ^ 2 + B2R (coord64 cs n 1) ^ 2 +
     B2R (coord64 cs n 2) ^ 2 =
     (B2R a ^ 2 + B2R b ^ 2 + B2R c ^ 2) / 4).
Proof.
  cbv zeta. split.
  - intros n Hn. rewrite corners64_as_map.
    enum8 n; cbn [bit_patterns flat_map map app nth sign_combination64 dist2_64];
      rewrite !pm64_sqr; reflexivity.
  - intros Ha Hb Hc n Hn.
    rewrite !coord64_map, (corners64_exact a b c Ha Hb Hc).
    enum8 n; unfold coord; cbn; field.
Qed.

Lemma corners64_equidistant_witness :
  B2R (coord64 (B64.corners 10 50 1.5) 7 0) ^ 2 +
  B2R (coord64 (B64.corners 10 50 1.5) 7 1) ^ 2 +
  B2R (coord64 (B64.corners 10 50 1.5) 7 2) ^ 2 =
  (B2R 10 ^ 2 + B2R 50 ^ 2 + B2R 1.5 ^ 2) / 4.
Proof.
  apply (proj2 (corners64_equidistant 10 50 1.5)); try reflexivity. lia.
Defined.

(** ** The two readings of the vertex array *)

(** X21.  Lines 7-13: for dimensions between [2^-1021] and the largest
    finite number nothing is rounded in the vertex array - halving and the
    products with [-1] and [1] are exact - so the real values of the
    binary64 array are the array computed in exact arithmetic from the real
    values of the dimensions, row by row and coordinate by coordinate. *)
Theorem corners64_refine (a b c : float) :
  in_range a = true -> in_range b = true -> in_range c = true ->
  (B2R (a / 2) = B2R a / 2 /\ B2R (b / 2) = B2R b / 2 /\
   B2R (c / 2) = B2R c / 2) /\
  map (map B2R) (B64.corners a b c) = corners (B2R a) (B2R b) (B2R c) /\
  (forall n axis,
     B2R (coord64 (B64.corners a b c) n axis) =
     coord (corners (B2R a) (B2R b) (B2R c)) n axis).
Proof.
  intros Ha Hb Hc.
  split; [repeat split; apply B2R_half; assumption |].
  split; [apply corners64_exact; assumption |].
  intros n axis. rewrite coord64_map, corners64_exact by assumption.
  reflexivity.
Qed.

Lemma corners64_refine_witness :
  (B2R (10 / 2) = B2R 10 / 2 /\ B2R (50 / 2) = B2R 50 / 2 /\
   B2R (1.5 / 2) = B2R 1.5 / 2) /\
  map (map B2R) (B64.corners 10 50 1.5) =
    corners (B2R 10) (B2R 50) (B2R 1.5) /\
  (forall n axis,
     B2R (coord64 (B64.corners 10 50 1.5) n axis) =
     coord (corners (B2R 10) (B2R 50) (B2R 1.5)) n axis).
Proof. apply (corners64_refine 10 50 1.5); reflexivity. Defined.

(** ** Symmetries of the binary64 vertex array *)

(** X22.  Lines 10-13, in binary64 and for all inputs: the vertex at index
    [7 - n] is the opposite of the vertex at index [n], in each of the three
    coordinates (negation is exact, so the cuboid is centred at the
    origin). *)
Theorem corners64_central_symmetry (a b c : float) :
  forall n axis, (n < 8)%nat -> (axis < 3)%nat ->
    coord64 (B64.corners a b c) (7 - n) axis =
    (- coord64 (B64.corners a b c) n axis)%float.
Proof.
  intros n axis Hn Haxis. rewrite corners64_as_map.
  assert (H3 : (axis = 0 \/ axis = 1 \/ axis = 2)%nat) by lia.
  enum8 n; destruct H3 as [-> | [-> | ->]]; cbn;
    rewrite ?opp_involutive; reflexivity.
Qed.

Lemma corners64_central_symmetry_witness :
  coord64 (B64.corners 10 50 1.5) (7 - 2) 1 =
  (- coord64 (B64.corners 10 50 1.5) 2 1)%float.
Proof. apply (corners64_central_symmetry 10 50 1.5 2%nat 1%nat); lia. Defined.

(** X23.  Lines 7-13, in binary64 and for all inputs: a negated dimension
    inverts the cuboid along its axis: the vertex array of [(-a, b, c)] is
    that of [(a, b, c)] with the rows exchanged in pairs across the X bit of
    the index, and likewise bit 1 for [b] and bit 0 for [c] (halving
    commutes with negation, and the products with [-1] and [1] are exact). *)
Theorem corners64_negated_dimension (a b c : float) :
  forall n, (n < 8)%nat ->
    nth_error (B64.corners (- a) b c) n =
      nth_error (B64.corners a b c) (Nat.lxor n 4) /\
    nth_error (B64.corners a (- b) c) n =
      nth_error (B64.corners a b c) (Nat.lxor n 2) /\
    nth_error (B64.corners a b (- c)) n =
      nth_error (B64.corners a b c) (Nat.lxor n 1).
Proof.
  intros n Hn. rewrite !corners64_as_map.
  enum8 n; cbn; unfold sign_combination64; rewrite !div_opp_two;
    cbn [pm64]; rewrite ?opp_involutive; repeat split.
Qed.

(** Row 1 of the cuboid inverted along X is row 5 of the cuboid. *)
Lemma corners64_negated_dimension_witness :
  nth_error (B64.corners (- 10) 50 1.5) 1 =
  nth_error (B64.corners 10 50 1.5) 5.
Proof.
  apply (proj1 (corners64_negated_dimension 10 50 1.5 1%nat ltac:(lia))).
Defined.

(** ** The semi-axes and the half-dimensions *)

(** X24.  Lines 7 and 27-28, in binary64: for dimensions between [2^-1021]
    and the largest finite number every computed semi-axis is strictly
    greater than the computed half-dimension of its axis, as binary64
    numbers and as real values, so every vertex coordinate is strictly
    smaller in absolute value than the semi-axis of its axis. *)
Theorem radii64_exceed_halves (a b c : float) :
  in_range a = true -> in_range b = true -> in_range c = true ->
  let '(rx, ry, rz) := B64.radii a b c in
  ((a / 2 <? rx)%float = true /\ (b / 2 <? ry)%float = true /\
   (c / 2 <? rz)%float = true) /\
  (B2R (a / 2) < B2R rx /\ B2R (b / 2) < B2R ry /\ B2R (c / 2) < B2R rz) /\
  (forall n, (n < 8)%nat ->
     Rabs (B2R (coord64 (B64.corners a b c) n 0)) < B2R rx /\
     Rabs (B2R (coord64 (B64.corners a b c) n 1)) < B2R ry /\
     Rabs (B2R (coord64 (B64.corners a b c) n 2)) < B2R rz).
Proof.
  intros Ha Hb Hc. cbn [B64.radii].
  assert (Hreal : forall d, in_range d = true ->
            0 < B2R (d / 2) < B2R (B64.k * d)).
  { intros d Hd. pose proof (B2R_mul_k d Hd) as HP.
    pose proof (B2R_in_range_pos d Hd) as HA.
    rewrite B2R_k in HP. apply Rabs_le_bounds in HP.
    rewrite (B2R_half d Hd). lra. }
  split; [repeat split; apply ltb_half_radius; assumption |].
  split; [repeat split; apply Hreal; assumption |].
  intros n Hn. rewrite !coord64_map, (corners64_exact a b c Ha Hb Hc).
  destruct (bit_index_surjective n Hn) as (bx & byy & bz & ->).
  destruct (corners_coord (B2R a) (B2R b) (B2R c) bx byy bz) as (-> & -> & ->).
  pose proof (Hreal a Ha) as Hxa. pose proof (Hreal b Hb) as Hxb.
  pose proof (Hreal c Hc) as Hxc.
  rewrite (B2R_half a Ha) in Hxa. rewrite (B2R_half b Hb) in Hxb.
  rewrite (B2R_half c Hc) in Hxc.
  repeat split;
    match goal with
    | |- Rabs (pm ?bit _) < _ =>
        destruct bit; cbn [pm]; rewrite ?Rabs_Ropp, Rabs_pos_eq; lra
    end.
Qed.

Lemma radii64_exceed_halves_witness :
  let '(rx, ry, rz) := B64.radii 10 50 1.5 in
  ((10 / 2 <? rx)%float = true /\ (50 / 2 <? ry)%float = true /\
   (1.5 / 2 <? rz)%float = true) /\
  (B2R (10 / 2) < B2R rx /\ B2R (50 / 2) < B2R ry /\
   B2R (1.5 / 2) < B2R rz) /\
  (forall n, (n < 8)%nat ->
     Rabs (B2R (coord64 (B64.corners 10 50 1.5) n 0)) < B2R rx /\
     Rabs (B2R (coord64 (B64.corners 10 50 1.5) n 1)) < B2R ry /\
     Rabs (B2R (coord64 (B64.corners 10 50 1.5) n 2)) < B2R rz).
Proof. apply (radii64_exceed_halves 10 50 1.5); reflexivity. Defined.

(** ** The scenarios of the specification, in binary64 *)

(** The cube of edge 2: the vertices are all [(+-1, +-1, +-1)] and the three
    semi-axes are the binary64 number nearest to [sqrt 3]. *)
Example cube64_2 :
  B64.corners 2 2 2 =
    [ [-1; -1; -1]; [-1; -1; 1]; [-1; 1; -1]; [-1; 1; 1];
      [1; -1; -1]; [1; -1; 1]; [1; 1; -1]; [1; 1; 1] ]%float /\
  B64.radii 2 2 2 =
    (0x1.bb67ae8584caap+0, 0x1.bb67ae8584caap+0, 0x1.bb67ae8584caap+0)%float.
Proof. split; reflexivity. Qed.

(** The example run: half-dimensions 5, 25 and 0.75; the semi-axes print as
    [8.660254037844386], [43.30127018922193] and [1.299038105676658]. *)
Example run64_10_50_1_5 :
  nth_error (B64.corners 10 50 1.5) 7 = Some [5; 25; 0.75]%float /\
  nth_error (B64.corners 10 50 1.5) 0 = Some [-5; -25; -0.75]%float /\
  B64.radii 10 50 1.5 =
    (0x1.1520cd1372feap+3, 0x1.5a6900584fbe5p+5, 0x1.4c8dc2e423980p+0)%float.
Proof. repeat split. Qed.
